(** * cascadia: the result synchronisation engine of [server.go]

    A shallow embedding of the polling code of [server.go]
    ([getAllTDs], [updateOne], [updatePending], [periodicallyUpdate]) and
    of the parts of the store and of the libraries it relies on, followed by
    the properties of the specification that were checked against it.

    Conventions.
    - A Go [string] is a sequence of bytes: [string] of the Standard Library.
    - A Go [int] is a [Z]; [len] of a slice is [Z.of_nat (length _)].  The
      indices the code computes stay far below 2^63, so no wrap-around
      occurs and none is written.
    - A slice that is only appended to and indexed is a [list]; an index
      out of range is a run-time panic, which the embedding makes explicit.
    - The [Samples] table is the list of its rows, in rowid order.
    - What the code calls outside the repository is modelled as far as the
      code depends on it: [strings.TrimSpace], the token stream of
      golang.org/x/net/html, and the three SQL statements on SQLite.  The
      portal, the clock and the failures of the store are inputs ([World],
      [PassEnv]).
    - The request handlers run next to the polling loop; here a request is
      served between two passes, never in the middle of one. *)

From Stdlib Require Import ZArith List Ascii Lia Bool Sorted.
From Stdlib Require String.
From stdpp Require Import base list strings.
Import ListNotations.

Local Open Scope Z_scope.

(** ** Go strings *)

Module GoString.

Definition byte (n : nat) : ascii := ascii_of_nat n.
Definition code (c : ascii) : nat := nat_of_ascii c.

(** [unicode.IsSpace] on the UTF-8 encoding of a rune.  In Latin-1 the
    spaces are '\t' '\n' '\v' '\f' '\r' ' ' U+0085 U+00A0; beyond it the
    White_Space runes U+1680, U+2000..U+200A, U+2028, U+2029, U+202F,
    U+205F and U+3000. *)
Definition space1 (c : ascii) : bool :=
  let n := code c in
  ((9 <=? n) && (n <=? 13) || (n =? 32))%nat.

Definition space2 (c1 c2 : ascii) : bool :=
  let a := code c1 in let b := code c2 in
  ((a =? 194) && ((b =? 133) || (b =? 160)))%nat.

Definition space3 (c1 c2 c3 : ascii) : bool :=
  let a := code c1 in let b := code c2 in let c := code c3 in
  ((a =? 225) && (b =? 154) && (c =? 128)
   || (a =? 226) && (b =? 128)
      && ((128 <=? c) && (c <=? 138) || (c =? 168) || (c =? 169) || (c =? 175))
   || (a =? 226) && (b =? 129) && (c =? 159)
   || (a =? 227) && (b =? 128) && (c =? 128))%nat.

(** Drops the leading space runes: [space1] for one byte, [s2] and [s3]
    for the encodings of two and of three bytes. *)
Fixpoint trim_front (s2 : ascii -> ascii -> bool)
         (s3 : ascii -> ascii -> ascii -> bool) (s : string) : string :=
  match s with
  | EmptyString => s
  | String c1 r1 =>
      if space1 c1 then trim_front s2 s3 r1
      else match r1 with
           | EmptyString => s
           | String c2 r2 =>
               if s2 c1 c2 then trim_front s2 s3 r2
               else match r2 with
                    | EmptyString => s
                    | String c3 r3 =>
                        if s3 c1 c2 c3 then trim_front s2 s3 r3 else s
                    end
           end
  end.

(** [strings.TrimLeftFunc(s, unicode.IsSpace)]. *)
Definition TrimLeft (s : string) : string := trim_front space2 space3 s.

(** [strings.TrimRightFunc(s, unicode.IsSpace)]: the same scan over the
    reversed bytes, an encoding being read last byte first. *)
Definition TrimRight (s : string) : string :=
  String.rev
    (trim_front (fun b a => space2 a b) (fun c b a => space3 a b c)
                (String.rev s)).

(** [strings.TrimSpace]. *)
Definition TrimSpace (s : string) : string := TrimRight (TrimLeft s).

(** ASCII lower case: 'A'..'Z' to 'a'..'z', every other byte as it is. *)
Definition lower (c : ascii) : ascii :=
  let n := code c in
  if ((65 <=? n) && (n <=? 90))%nat then byte (n + 32) else c.

(** [len(s) == 0], that is [s == ""]. *)
Definition is_empty (s : string) : bool :=
  match s with EmptyString => true | _ => false end.

End GoString.

Import GoString.

(** ** golang.org/x/net/html: what [getAllTDs] sees of a tokenizer *)

(** [io.EOF] against every other error value. *)
Inductive error : Type :=
| EOF
| OtherError (msg : string).

(** The token types [Next] returns before the stream ends.  [ErrorToken] is
    the end of the token list of a [Tokenizer], with [Err] as its cause. *)
Inductive TokenType : Type :=
| TextToken
| StartTagToken
| EndTagToken
| SelfClosingTagToken
| CommentToken
| DoctypeToken.

Record Token : Type := mkToken { Type_ : TokenType; Data : string }.

(** A tokenizer over a reader: the tokens it yields, then [ErrorToken] for
    ever with [Err] as the error. *)
Record Tokenizer : Type := mkTokenizer { tokens : list Token; Err : error }.

Definition TokenType_eqb (a b : TokenType) : bool :=
  match a, b with
  | TextToken, TextToken | StartTagToken, StartTagToken
  | EndTagToken, EndTagToken | SelfClosingTagToken, SelfClosingTagToken
  | CommentToken, CommentToken | DoctypeToken, DoctypeToken => true
  | _, _ => false
  end.

(** ** getAllTDs *)

(** [tokenType == html.StartTagToken && token.Data == "td"] *)
Definition is_td_start (tok : Token) : bool :=
  TokenType_eqb (Type_ tok) StartTagToken && String.eqb (Data tok) "td".

(** The loop state: the slice [data] and the flag [grabNextText]. *)
Record Grab : Type := mkGrab { data : list string; grabNextText : bool }.

(** One turn of the [for] loop on a token that is not [ErrorToken]. *)
Definition grab_step (st : Grab) (tok : Token) : Grab :=
  let g := if is_td_start tok then true else grabNextText st in
  if TokenType_eqb (Type_ tok) TextToken && g then
    let d := TrimSpace (Data tok) in
    if is_empty d then mkGrab (data st) g          (* continue *)
    else mkGrab (data st ++ [d]) false
  else mkGrab (data st) g.

Definition grab_run (toks : list Token) : Grab :=
  fold_left grab_step toks (mkGrab [] false).

(** The pair [([]string, error)] that [getAllTDs] returns. *)
Inductive Scraped : Type :=
| Cells (data : list string)
| ScrapeError (e : error).

Definition getAllTDs (h : Tokenizer) : Scraped :=
  let st := grab_run (tokens h) in
  match Err h with
  | EOF => Cells (data st)
  | e => ScrapeError e
  end.

(** ** html.NewTokenizer on plain markup *)

(** The tokens of a document made of text, [<name>], [</name>] and
    [<name/>], the names being letters and digits, as the tokenizer of
    golang.org/x/net/html yields them: tag names in lower case, a text
    token for every non-empty run of text, [io.EOF] at the end.  The model
    declines ([None]) what it does not cover: attributes, comments and
    doctypes, character references ('&'), carriage returns and NUL bytes in
    text, a '<' that opens no tag, a tag cut short by the end of input, and
    the elements whose content is raw text. *)

Definition is_letter (c : ascii) : bool :=
  let n := code c in
  ((65 <=? n) && (n <=? 90) || (97 <=? n) && (n <=? 122))%nat.

Definition is_digit (c : ascii) : bool :=
  let n := code c in ((48 <=? n) && (n <=? 57))%nat.

Definition raw_text_element (name : string) : bool :=
  existsb (String.eqb name)
          ["iframe"; "noembed"; "noframes"; "noscript"; "plaintext";
           "script"; "style"; "textarea"; "title"; "xmp"].

Inductive Lex : Type :=
| LText (txt : string)       (* in text; [txt] is the run so far, reversed *)
| LOpen                      (* after '<' *)
| LStartName (name : string) (* in the name of a start tag, reversed *)
| LSlash (name : string)     (* after the '/' of [<name/] *)
| LEndOpen                   (* after '</' *)
| LEndName (name : string).  (* in the name of an end tag, reversed *)

(** The tokens so far, the latest first, with the pending text added. *)
Definition flush (txt : string) (out : list Token) : list Token :=
  if is_empty txt then out else mkToken TextToken (String.rev txt) :: out.

Fixpoint lex (st : Lex) (out : list Token) (s : string) : option (list Token) :=
  match s with
  | EmptyString =>
      match st with
      | LText txt => Some (rev (flush txt out))
      | _ => None
      end
  | String c s' =>
      match st with
      | LText txt =>
          if Ascii.eqb c "<" then lex LOpen (flush txt out) s'
          else if Ascii.eqb c "&" || (code c =? 13)%nat || (code c =? 0)%nat then None
          else lex (LText (String c txt)) out s'
      | LOpen =>
          if is_letter c then lex (LStartName (String (lower c) "")) out s'
          else if Ascii.eqb c "/" then lex LEndOpen out s'
          else None
      | LStartName name =>
          if is_letter c || is_digit c then lex (LStartName (String (lower c) name)) out s'
          else if raw_text_element (String.rev name) then None
          else if Ascii.eqb c ">"
               then lex (LText "") (mkToken StartTagToken (String.rev name) :: out) s'
          else if Ascii.eqb c "/" then lex (LSlash name) out s'
          else None
      | LSlash name =>
          if Ascii.eqb c ">"
          then lex (LText "") (mkToken SelfClosingTagToken (String.rev name) :: out) s'
          else None
      | LEndOpen =>
          if is_letter c then lex (LEndName (String (lower c) "")) out s'
          else None
      | LEndName name =>
          if is_letter c || is_digit c then lex (LEndName (String (lower c) name)) out s'
          else if Ascii.eqb c ">"
               then lex (LText "") (mkToken EndTagToken (String.rev name) :: out) s'
          else None
      end
  end.

Definition tokenize (doc : string) : option (list Token) := lex (LText "") [] doc.

(** [html.NewTokenizer(r)] for a reader over the bytes of [doc]. *)
Definition NewTokenizer (doc : string) : option Tokenizer :=
  match tokenize doc with
  | Some toks => Some (mkTokenizer toks EOF)
  | None => None
  end.

(** The fixture of the specification. *)
Definition fixture : string :=
  "<table><tr><td>a</td><td>H1</td><td>H2</td><td>2024-01-01</td></tr></table>".

(** ** Run-time results of Go code *)

(** A computation returns, panics (index out of range), or exhausts the
    iteration budget the embedding gives a [for] loop. *)
Inductive Go (A : Type) : Type :=
| Ret (a : A)
| Panic
| NoFuel.
Arguments Ret {A} a.
Arguments Panic {A}.
Arguments NoFuel {A}.

Definition bind {A B} (m : Go A) (k : A -> Go B) : Go B :=
  match m with
  | Ret a => k a
  | Panic => Panic
  | NoFuel => NoFuel
  end.

Notation "'let*' x := m 'in' k" := (bind m (fun x => k))
  (at level 10, x name, m at level 100, k at level 200).

Definition len {A} (l : list A) : Z := Z.of_nat (length l).

(** [data[i]] *)
Definition index (data : list string) (i : Z) : Go string :=
  if i <? 0 then Panic
  else match data !! Z.to_nat i with
       | Some d => Ret d
       | None => Panic
       end.

(** ** The positional parser inside updateOne *)

Inductive Classification : Type :=
| NotYetAvailable
| Unrecognized
| Resolved (results sample_date : string).

(** [for i := 3; i < len(data)-3; i = i + 2 { results = results + " | " +
    data[i] + " " + data[i+1] }] *)
Fixpoint additional_rows (fuel : nat) (data : list string) (i : Z)
         (results : string) : Go string :=
  if i <? len data - 3 then
    match fuel with
    | O => NoFuel
    | S fuel' =>
        let* a := index data i in
        let* b := index data (i + 1) in
        additional_rows fuel' data (i + 2) (results +:+ " | " +:+ a +:+ " " +:+ b)
    end
  else Ret results.

(** From [if len(data) == 0] to the arguments of the [UPDATE]. *)
Definition parse (data : list string) : Go Classification :=
  if len data =? 0 then Ret NotYetAvailable
  else if (len data <? 4) || ((5 <=? len data) && negb (Z.rem (len data) 2 =? 1))
  then Ret Unrecognized
  else
    let* h1 := index data 1 in
    let* h2 := index data 2 in
    let* results := additional_rows (length data) data 3 (h1 +:+ " " +:+ h2) in
    let* sample_date := index data (len data - 2) in
    Ret (Resolved results sample_date).

(** ** Configuration and the Samples table *)

Module ConfigPerson.
Record t : Type := mk { Name : string; DateOfBirth : string }.
End ConfigPerson.

Definition Time : Type := Z.

(** [sql.NullString] and a [*time.Time] that may be nil are options. *)
Record Sample : Type := mkSample {
  Name : string;
  Barcode : string;
  Results : option string;
  CreatedTime : option Time;
  UpdatedTime : option Time;
  SampleDate : option string
}.

Abbreviation DB := (list Sample).

(** *** SQLite's LIKE *)

(** Skips the continuation bytes that follow a lead byte. *)
Fixpoint skip_cont (s : string) : string :=
  match s with
  | String c s' => if ((128 <=? code c) && (code c <? 192))%nat then skip_cont s' else s
  | EmptyString => s
  end.

(** [like p s]: the pattern [p] matches all of [s]; '%' stands for any
    sequence of characters, '_' for one character, every other byte for
    itself up to ASCII case. *)
Fixpoint like (p s : string) : bool :=
  match p with
  | EmptyString => is_empty s
  | String pc p' =>
      if Ascii.eqb pc "%" then
        (fix any (s : string) : bool :=
           like p' s || match s with
                        | EmptyString => false
                        | String _ s' => any s'
                        end) s
      else if Ascii.eqb pc "_" then
        match s with
        | EmptyString => false
        | String c s' => like p' (if (192 <=? code c)%nat then skip_cont s' else s')
        end
      else
        match s with
        | EmptyString => false
        | String c s' => Ascii.eqb (lower pc) (lower c) && like p' s'
        end
  end.

(** SQLite reads a text operand up to its first NUL byte. *)
Fixpoint c_string (s : string) : string :=
  match s with
  | EmptyString => EmptyString
  | String c s' => if (code c =? 0)%nat then EmptyString else String c (c_string s')
  end.

(** [results LIKE '%pending%']; NULL is not LIKE anything. *)
Definition results_like_pending (r : Sample) : bool :=
  match Results r with
  | Some s => like "%pending%" (c_string s)
  | None => false
  end.

(** [SELECT * FROM Samples WHERE results LIKE '%pending%'] *)
Definition select_pending (db : DB) : list Sample :=
  List.filter results_like_pending db.

(** [UPDATE Samples SET results = ?, updated_time = ?, sample_date = ?
    WHERE barcode = ?]: the table afterwards and the rows affected. *)
Definition set_result (results : string) (t : Time) (sample_date : string)
           (r : Sample) : Sample :=
  {| Name := Name r; Barcode := Barcode r; Results := Some results;
     CreatedTime := CreatedTime r; UpdatedTime := Some t;
     SampleDate := Some sample_date |}.

(** [WHERE barcode = ?] *)
Definition has_barcode (barcode : string) (r : Sample) : bool :=
  String.eqb (Barcode r) barcode.

Definition update_samples (db : DB) (results : string) (t : Time)
           (sample_date barcode : string) : DB * Z :=
  (map (fun r => if has_barcode barcode r
                 then set_result results t sample_date r else r) db,
   len (List.filter (has_barcode barcode) db)).

(** [INSERT INTO Samples VALUES (?, ?, 'pending', ?, ?, NULL)] *)
Definition AddSample (name barcode : string) (t : Time) (db : DB) : DB :=
  db ++ [ {| Name := name; Barcode := barcode; Results := Some "pending";
             CreatedTime := Some t; UpdatedTime := Some t; SampleDate := None |} ].

(** ** updateOne *)

Inductive Response : Type :=
| PostError (msg : string)
| Body (h : Tokenizer).

(** What one call of [updateOne] gets from outside: the portal's answer to
    the posted form (barcode, dob), the clock, and whether the store
    refuses the [UPDATE]. *)
Record World : Type := mkWorld {
  PostForm : string -> string -> Response;
  Now : Time;
  ExecFails : bool
}.

(** How a call of [updateOne] ends, by the line it logs. *)
Inductive Outcome : Type :=
| NoMatch                      (* Couldn't find match for name *)
| RetrieveError (msg : string) (* Retrieve results error *)
| ParsingError (e : error)     (* parsing error *)
| NoDataYet                    (* No data yet, skipping *)
| DontKnow                     (* Uh, don't know what is happening here *)
| SaveError                    (* Error saving *)
| Updated                      (* one row updated; returns *)
| Fatal (num : Z)              (* log.Fatalf: Expected to update one row *)
| Crashed                      (* run-time panic *)
| Unfinished.                  (* the loop budget of the embedding ran out *)

(** The roster scan: the first person of that name, [""] if none. *)
Fixpoint find_dob (people : list ConfigPerson.t) (name : string) : string :=
  match people with
  | [] => ""
  | p :: rest =>
      if String.eqb (ConfigPerson.Name p) name then ConfigPerson.DateOfBirth p
      else find_dob rest name
  end.

Definition updateOne (people : list ConfigPerson.t) (w : World) (db : DB)
           (smpl : Sample) : DB * Outcome :=
  let dob := find_dob people (Name smpl) in
  if is_empty dob then (db, NoMatch) else
  match PostForm w (Barcode smpl) dob with
  | PostError e => (db, RetrieveError e)
  | Body h =>
      match getAllTDs h with
      | ScrapeError e => (db, ParsingError e)
      | Cells data =>
          match parse data with
          | Ret NotYetAvailable => (db, NoDataYet)
          | Ret Unrecognized => (db, DontKnow)
          | Ret (Resolved results sample_date) =>
              if ExecFails w then (db, SaveError) else
              let '(db', num) :=
                update_samples db results (Now w) sample_date (Barcode smpl) in
              if negb (num =? 1) then (db', Fatal num) else (db', Updated)
          | Panic => (db, Crashed)
          | NoFuel => (db, Unfinished)
          end
      end
  end.

(** The process is gone after these. *)
Definition terminates (o : Outcome) : bool :=
  match o with
  | Fatal _ | Crashed | Unfinished => true
  | _ => false
  end.

(** ** updatePending *)

(** What a pass gets from outside: whether the query (or a row scan)
    fails, and the world of the k-th call of [updateOne]. *)
Record PassEnv : Type := mkPassEnv {
  QueryFails : bool;
  Call : nat -> World
}.

(** The table after the pass, the outcome of every call made, in order, and
    whether the process was terminated during it. *)
Record Pass : Type := mkPass {
  store : DB;
  outcomes : list Outcome;
  exited : bool
}.

(** [for _, sample := range samples { s.updateOne(sample) }] *)
Fixpoint update_loop (people : list ConfigPerson.t) (call : nat -> World)
         (k : nat) (db : DB) (samples : list Sample) : Pass :=
  match samples with
  | [] => mkPass db [] false
  | sample :: rest =>
      let '(db', o) := updateOne people (call k) db sample in
      if terminates o then mkPass db' [o] true
      else
        let p := update_loop people call (S k) db' rest in
        mkPass (store p) (o :: outcomes p) (exited p)
  end.

(** The slice [samples] of a pass. *)
Definition samples_of (env : PassEnv) (db : DB) : list Sample :=
  if QueryFails env then [] else select_pending db.

Definition updatePending (people : list ConfigPerson.t) (env : PassEnv)
           (db : DB) : Pass :=
  if QueryFails env then mkPass db [] false
  else update_loop people (Call env) 0 db (select_pending db).

(** ** periodicallyUpdate, next to the request handlers *)

Inductive Process : Type :=
| Running (db : DB)
| Exited (db : DB).

(** What happens to the process: the ticker fires, or a form is posted to
    [/new].  Requests are taken between passes. *)
Inductive Event : Type :=
| Tick (env : PassEnv)
| NewSample (name barcode : string) (t : Time).

Definition run_pass (people : list ConfigPerson.t) (env : PassEnv)
           (p : Process) : Process :=
  match p with
  | Running db =>
      let r := updatePending people env db in
      if exited r then Exited (store r) else Running (store r)
  | Exited _ => p
  end.

(** [handleNewSample] on a POST, with the store accepting the insert. *)
Definition handleNewSample (name barcode : string) (t : Time) (p : Process)
  : Process :=
  match p with
  | Running db =>
      if is_empty name || is_empty barcode then p
      else Running (AddSample name barcode t db)
  | Exited _ => p
  end.

Definition on_event (people : list ConfigPerson.t) (p : Process) (ev : Event)
  : Process :=
  match ev with
  | Tick env => run_pass people env p
  | NewSample name barcode t => handleNewSample name barcode t p
  end.

(** [periodicallyUpdate] up to the last of the events [evs]: one pass at
    once, then one per tick. *)
Definition periodicallyUpdate (people : list ConfigPerson.t) (first : PassEnv)
           (evs : list Event) (db : DB) : Process :=
  fold_left (on_event people) evs (run_pass people first (Running db)).

(** ** The rendering rule in the words of the specification *)

(** [cells[i]], with [""] where there is no such cell. *)
Definition cell (cells : list string) (i : Z) : string :=
  if i <? 0 then "" else nth (Z.to_nat i) cells "".

(** The indices i = 3, 5, 7, ... with i < count - 3. *)
Definition row_indices (count : Z) : list Z :=
  filter (fun i => i < count - 3)
         (map (fun k => 3 + 2 * Z.of_nat k) (seq 0 (Z.to_nat count))).

(** [" | " + cells[i] + " " + cells[i+1]] *)
Definition row_text (cells : list string) (i : Z) : string :=
  " | " +:+ cell cells i +:+ " " +:+ cell cells (i + 1).

(** The header [cells[1] + " " + cells[2]] followed by one [row_text] per
    additional row. *)
Definition rendered_text (cells : list string) : string :=
  (cell cells 1 +:+ " " +:+ cell cells 2)
  +:+ String.concat "" (map (row_text cells) (row_indices (len cells))).

(** ** Positions in a token stream *)

Definition text_token (t : string) : Token := mkToken TextToken t.
Definition td_start : Token := mkToken StartTagToken "td".

(** The cells [getAllTDs] has collected when the tokens end. *)
Definition cells_of (toks : list Token) : list string := data (grab_run toks).

(** A [td] start tag stands before position [k], and every text token
    between that tag and [k] trims to the empty string. *)
Definition armed (toks : list Token) (k : nat) : Prop :=
  exists j, (j < k)%nat /\ toks !! j = Some td_start /\
            forall m t, (j < m < k)%nat -> toks !! m = Some (text_token t) ->
                        TrimSpace t = "".

(** The cell [d] is the trimmed, non-empty text of the text token at
    position [k], which is armed. *)
Definition emitted_at (toks : list Token) (k : nat) (d : string) : Prop :=
  exists t, toks !! k = Some (text_token t) /\ d = TrimSpace t /\ d <> ""
            /\ armed toks k.

(** *** Table-cell elements, as the specification speaks of them *)

Definition is_cell_name (name : string) : bool :=
  String.eqb name "td" || String.eqb name "th".

(** The table-cell elements that are open after the tokens [toks]. *)
Definition open_cells (toks : list Token) : nat :=
  fold_left (fun depth tok =>
               match Type_ tok with
               | StartTagToken => if is_cell_name (Data tok) then S depth else depth
               | EndTagToken => if is_cell_name (Data tok) then pred depth else depth
               | _ => depth
               end) toks 0%nat.

(** The token at position [k] lies inside a table-cell element. *)
Definition in_table_cell (toks : list Token) (k : nat) : bool :=
  (0 <? open_cells (take k toks))%nat.

(** The extractor's contract as the specification words it: every cell is
    the trimmed text of a text token that lies inside a table cell. *)
Definition emitted_inside_cells (toks : list Token) : Prop :=
  forall d, d ∈ cells_of toks ->
            exists k t, toks !! k = Some (text_token t)
                        /\ in_table_cell toks k = true /\ d = TrimSpace t.

(** An empty cell followed by text outside the table: [<td></td>hello]. *)
Definition empty_cell_then_text : list Token :=
  [td_start; mkToken EndTagToken "td"; text_token "hello"].

(** ** The store and the pass, as the specification speaks of them *)

(** ASCII case folding of a string. *)
Fixpoint fold_case (s : string) : string :=
  match s with
  | EmptyString => EmptyString
  | String c s' => String (lower c) (fold_case s')
  end.

(** "pending" occurs in [s], in any ASCII letter case, before the first
    NUL byte. *)
Definition contains_pending (s : string) : Prop :=
  exists pre mid suf, c_string s = pre +:+ mid +:+ suf /\ fold_case mid = "pending".

(** The call of [updateOne] for [smpl] in the world [w] gets as far as the
    [UPDATE], with [results] and [sample_date] as its arguments. *)
Definition reaches_update (people : list ConfigPerson.t) (w : World)
           (smpl : Sample) (results sample_date : string) : Prop :=
  find_dob people (Name smpl) <> "" /\
  exists h cells,
    PostForm w (Barcode smpl) (find_dob people (Name smpl)) = Body h /\
    getAllTDs h = Cells cells /\
    parse cells = Ret (Resolved results sample_date).

(** The soft failures of a call of [updateOne], each with the outcome the
    code logs for it: no roster entry for the name, a network error, a
    tokenizer error, no cell yet, a cell count the parser does not know. *)
Inductive SoftFailure (people : list ConfigPerson.t) (w : World) (smpl : Sample)
  : Outcome -> Prop :=
| soft_no_match :
    find_dob people (Name smpl) = "" ->
    SoftFailure people w smpl NoMatch
| soft_network msg :
    find_dob people (Name smpl) <> "" ->
    PostForm w (Barcode smpl) (find_dob people (Name smpl)) = PostError msg ->
    SoftFailure people w smpl (RetrieveError msg)
| soft_scrape h e :
    find_dob people (Name smpl) <> "" ->
    PostForm w (Barcode smpl) (find_dob people (Name smpl)) = Body h ->
    getAllTDs h = ScrapeError e ->
    SoftFailure people w smpl (ParsingError e)
| soft_not_yet h :
    find_dob people (Name smpl) <> "" ->
    PostForm w (Barcode smpl) (find_dob people (Name smpl)) = Body h ->
    getAllTDs h = Cells [] ->
    SoftFailure people w smpl NoDataYet
| soft_unrecognized h cells :
    find_dob people (Name smpl) <> "" ->
    PostForm w (Barcode smpl) (find_dob people (Name smpl)) = Body h ->
    getAllTDs h = Cells cells ->
    (0 < len cells < 4 \/ (5 <= len cells /\ Z.even (len cells) = true)) ->
    SoftFailure people w smpl DontKnow.

(** The selection rule as the specification words it: the samples of a
    pass are the rows whose results are the sentinel itself. *)
Definition selects_the_sentinel (env : PassEnv) (db : DB) : Prop :=
  forall r, r ∈ samples_of env db <-> r ∈ db /\ Results r = Some "pending".

(** Resolution as the specification words it: in a table [db], a row whose
    results are a value other than the sentinel is not among the samples
    of the next pass, and that pass leaves the row as it is. *)
Definition resolved_for_good (people : list ConfigPerson.t) (next : PassEnv)
           (db : DB) : Prop :=
  forall i r v, db !! i = Some r -> Results r = Some v -> v <> "pending" ->
                (r ∉ samples_of next db)
                /\ store (updatePending people next db) !! i = Some r.

(** *** A run in which the portal's text contains the sentinel *)

Definition roster : list ConfigPerson.t := [ConfigPerson.mk "Ann" "01/02/1990"].

(** The portal answers with a table of the four cells given. *)
Definition four_cells (c0 c1 c2 c3 : string) : Response :=
  Body (mkTokenizer
          [td_start; text_token c0; td_start; text_token c1;
           td_start; text_token c2; td_start; text_token c3] EOF).

Definition answering (resp : Response) (t : Time) : PassEnv :=
  mkPassEnv false (fun _ => mkWorld (fun _ _ => resp) t false).

(** One sample registered at time 100. *)
Definition one_pending : DB := AddSample "Ann" "B1" 100 [].

(** At time 200 the portal reports "Result pending". *)
Definition first_pass : PassEnv :=
  answering (four_cells "x" "Result" "pending" "2024-01-01") 200.

(** At time 300 it reports "Negative final". *)
Definition second_pass : PassEnv :=
  answering (four_cells "x" "Negative" "final" "2024-01-02") 300.

(** *** A run in which a barcode is registered twice *)

(** The table after the two passes above. *)
Definition resolved_table : DB :=
  [ {| Name := "Ann"; Barcode := "B1"; Results := Some "Negative final";
       CreatedTime := Some 100; UpdatedTime := Some 300;
       SampleDate := Some "final" |} ].

(** The same barcode is registered again at time 400. *)
Definition registered_again : list Event := [Tick second_pass; NewSample "Ann" "B1" 400].

(** At time 500 the portal reports "Positive final". *)
Definition third_pass : PassEnv :=
  answering (four_cells "x" "Positive" "final" "2024-01-03") 500.

(** ** Auxiliary notions of the proofs *)

(** The odd indices 3 + 2s, 3 + 2(s+1), ..., [n] of them. *)
Definition odd_from (s n : nat) : list Z :=
  map (fun k => 3 + 2 * Z.of_nat k) (seq s n).

(** The four ways a turn of the loop can go. *)
Inductive turn (st : Grab) (tok : Token) : Grab -> Prop :=
| turn_td :
    tok = td_start -> turn st tok (mkGrab (data st) true)
| turn_blank t :
    tok = text_token t -> grabNextText st = true -> TrimSpace t = "" ->
    turn st tok st
| turn_emit t :
    tok = text_token t -> grabNextText st = true -> TrimSpace t <> "" ->
    turn st tok (mkGrab (data st ++ [TrimSpace t]) false)
| turn_skip :
    tok <> td_start ->
    (forall t, tok = text_token t -> grabNextText st = false) ->
    turn st tok st.

(** No '%' and no '_' in the pattern. *)
Fixpoint literal (q : string) : bool :=
  match q with
  | EmptyString => true
  | String c q' => negb (Ascii.eqb c "%") && negb (Ascii.eqb c "_") && literal q'
  end.

(** The row at place [i], [r] before, has been rewritten by a commit made
    for the row at another place [j], which carries the barcode of [r]:
    both rows hold the text, the time and the sample date of that
    commit, and the other columns of [r] are as they were. *)
Definition rewritten_beside (i : nat) (r : Sample) (db : DB) : Prop :=
  exists j x results t sample_date,
    j <> i /\ db !! j = Some x /\ Barcode x = Barcode r
    /\ Results x = Some results /\ UpdatedTime x = Some t
    /\ SampleDate x = Some sample_date
    /\ db !! i = Some (set_result results t sample_date r).

(** What has become of the row [r] at place [i]: it is as it was while the
    process runs; when the process has ended it is as it was, or the last
    commit has rewritten it beside a row with its barcode. *)
Definition row_fate (i : nat) (r : Sample) (p : Process) : Prop :=
  match p with
  | Running db => db !! i = Some r
  | Exited db => db !! i = Some r \/ rewritten_beside i r db
  end.

(** ** The request handlers and GetSamples *)

From stdpp Require Import sorting.

Local Open Scope Z_scope.

Module Handlers.

(** The status a handler answers with; [SeeOther] is the redirect to "/". *)
Inductive Status : Type :=
| NotFound
| BadRequest
| InternalServerError
| SeeOther
| OK.

(** [url.Values.Get]: the first value of the key, [""] when it has none.
    The form is the list of its fields, the values of a key in order. *)
Fixpoint Get (form : list (string * string)) (key : string) : string :=
  match form with
  | [] => ""
  | (k, v) :: rest => if String.eqb k key then v else Get rest key
  end.

(** What the handlers read of a request; [Form] is [None] when
    [ParseForm] returns an error. *)
Record Request : Type := mkRequest {
  Method : string;
  Path : string;
  Form : option (list (string * string))
}.

(** [handleNewSample], at time [now], [insert_fails] telling whether the
    store refuses the [INSERT]. *)
Definition handleNewSample (r : Request) (now : Time) (insert_fails : bool)
           (db : DB) : DB * Status :=
  if negb (String.eqb (Method r) "POST") then (db, NotFound) else
  match Form r with
  | None => (db, BadRequest)
  | Some form =>
      let name := Get form "person" in
      let barcode := Get form "barcode" in
      if is_empty name || is_empty barcode then (db, BadRequest)
      else if insert_fails then (db, InternalServerError)
      else (AddSample name barcode now db, SeeOther)
  end.

(** The value [handleIndex] hands to the template. *)
Record Response : Type := mkResponse {
  People : list ConfigPerson.t;
  Samples : list Sample
}.

Section Listing.

(** How the store orders two values of the column updated_time: the first
    is not older than the second. *)
Context (not_older : relation (option Time)) `{!RelDecision not_older}.

(** [ORDER BY updated_time DESC]: the row [r] may stand before [r']. *)
Definition newest_first (r r' : Sample) : Prop :=
  not_older (UpdatedTime r) (UpdatedTime r').

#[local] Instance newest_first_dec : RelDecision newest_first.
Proof. intros r r'. unfold newest_first. apply _. Defined.

(** [SELECT * FROM Samples ORDER BY updated_time DESC LIMIT ?]; a negative
    limit is no limit.  [None] when the query or a row scan fails. *)
Definition GetSamples (query_fails : bool) (limit : Z) (db : DB)
  : option (list Sample) :=
  if query_fails then None
  else
    let rows := merge_sort newest_first db in
    Some (if limit <? 0 then rows else take (Z.to_nat limit) rows).

Definition handleIndex (people : list ConfigPerson.t) (r : Request)
           (query_fails : bool) (db : DB) : Status * option Response :=
  if negb (String.eqb (Path r) "/") then (NotFound, None) else
  match GetSamples query_fails 10 db with
  | None => (InternalServerError, None)
  | Some samples => (OK, Some (mkResponse people samples))
  end.

End Listing.

End Handlers.

(** The order of the integers on times, NULL below every time. *)
Definition not_older_Z (a b : option Time) : Prop :=
  match a, b with
  | _, None => True
  | None, Some _ => False
  | Some x, Some y => y <= x
  end.

(** ** Counting in a token stream, and what a pass keeps of a row *)

Definition count_td (toks : list Token) : nat :=
  length (List.filter is_td_start toks).

Definition count_text (toks : list Token) : nat :=
  length (List.filter (fun tok => TokenType_eqb (Type_ tok) TextToken) toks).

(** The columns no statement of the polling code writes. *)
Definition same_identity (r r' : Sample) : Prop :=
  Name r = Name r' /\ Barcode r = Barcode r' /\ CreatedTime r = CreatedTime r'.

(** The table the process has, running or not. *)
Definition store_of (p : Process) : DB :=
  match p with
  | Running db => db
  | Exited db => db
  end.

(** The row [AddSample] inserts. *)
Definition pending_row (name barcode : string) (t : Time) : Sample :=
  {| Name := name; Barcode := barcode; Results := Some "pending";
     CreatedTime := Some t; UpdatedTime := Some t; SampleDate := None |}.

#[global] Instance not_older_Z_dec : RelDecision not_older_Z.
Proof. intros [x|] [y|]; simpl; apply _. Defined.

(** Two rows, the second updated later than the first. *)
Definition two_rows : DB :=
  [ {| Name := "Ann"; Barcode := "B1"; Results := Some "Negative final";
       CreatedTime := Some 100; UpdatedTime := Some 300;
       SampleDate := Some "final" |};
    pending_row "Bob" "B2" 400 ].

(** [s] is empty or begins with a rune that is no space, [s2] and [s3]
    telling the spaces of two and of three bytes. *)
Definition no_space_in_front (s2 : ascii -> ascii -> bool)
           (s3 : ascii -> ascii -> ascii -> bool) (s : string) : Prop :=
  match s with
  | EmptyString => True
  | String c1 r1 =>
      space1 c1 = false
      /\ match r1 with
         | EmptyString => True
         | String c2 r2 =>
             s2 c1 c2 = false
             /\ match r2 with
                | EmptyString => True
                | String c3 _ => s3 c1 c2 c3 = false
                end
         end
  end.

(** * Properties *)

(** ** Strings and indices *)

Lemma append_nil_r (s : string) : s +:+ "" = s.
Proof.
  induction s as [|c s IH]; [reflexivity|].
  change (String c (s +:+ "") = String c s). now rewrite IH.
Qed.

Lemma append_assoc (a b c : string) : (a +:+ b) +:+ c = a +:+ (b +:+ c).
Proof.
  induction a as [|x a IH]; [reflexivity|].
  change (String x ((a +:+ b) +:+ c) = String x (a +:+ (b +:+ c))).
  now rewrite IH.
Qed.

(** [TrimSpace] on ASCII blanks, on a no-break space (C2 A0) in front and
    a narrow no-break space (E2 80 AF) behind, and on an inner blank. *)
Example TrimSpace_ascii :
  TrimSpace (String (byte 9) " 2024-01-01 " +:+ String (byte 10) "") = "2024-01-01".
Proof. reflexivity. Qed.

Example TrimSpace_unicode :
  TrimSpace (String (byte 194) (String (byte 160) "Not detected")
             +:+ String (byte 226) (String (byte 128) (String (byte 175) "")))
  = "Not detected".
Proof. reflexivity. Qed.

Example TrimSpace_blank : TrimSpace (String (byte 13) (String (byte 10) "  ")) = "".
Proof. reflexivity. Qed.

Lemma len_nonneg {A} (l : list A) : 0 <= len l.
Proof. unfold len; lia. Qed.

Lemma len_nil_iff {A} (l : list A) : len l = 0 <-> l = [].
Proof.
  unfold len; split; [|now intros ->].
  destruct l; simpl; [reflexivity | lia].
Qed.

Lemma index_in_range (cells : list string) (i : Z) :
  0 <= i < len cells -> index cells i = Ret (cell cells i).
Proof.
  unfold index, cell, len; intros Hi.
  destruct (Z.ltb_spec i 0) as [?|_]; [lia|].
  destruct (cells !! Z.to_nat i) as [d|] eqn:E.
  - f_equal. symmetry. apply nth_lookup_Some with (d := ""%string) in E. exact E.
  - apply lookup_ge_None in E. lia.
Qed.

Lemma rem2_odd (n : Z) : 0 <= n -> (Z.rem n 2 =? 1) = Z.odd n.
Proof. intros Hn. rewrite Z.rem_mod_nonneg by lia. symmetry; apply Zodd_mod. Qed.

(** ** The loop over the additional rows *)

Lemma no_rows_beyond (c : Z) (s n : nat) :
  ~ (3 + 2 * Z.of_nat s < c - 3) ->
  filter (fun i => i < c - 3) (odd_from s n) = [].
Proof.
  revert s; induction n as [|n IH]; intros s Hs; [reflexivity|].
  unfold odd_from in *; simpl.
  rewrite filter_cons_False by exact Hs.
  apply IH; lia.
Qed.

Lemma additional_rows_spec (cells : list string) (n : nat) :
  forall (s fuel : nat) (acc : string),
    len cells - 3 <= 3 + 2 * Z.of_nat (s + n) ->
    len cells - 3 - (3 + 2 * Z.of_nat s) <= Z.of_nat fuel ->
    additional_rows fuel cells (3 + 2 * Z.of_nat s) acc
    = Ret (acc +:+ String.concat ""
                 (map (row_text cells)
                      (filter (fun i => i < len cells - 3) (odd_from s n)))).
Proof.
  induction n as [|n IH]; intros s fuel acc Hn Hfuel.
  - replace (s + 0)%nat with s in Hn by lia.
    unfold odd_from; cbn [seq map]. rewrite filter_nil.
    cbn [map String.concat]. rewrite append_nil_r.
    destruct fuel; cbn [additional_rows];
      (destruct (Z.ltb_spec (3 + 2 * Z.of_nat s) (len cells - 3)); [lia|]);
      reflexivity.
  - destruct (Z.ltb_spec (3 + 2 * Z.of_nat s) (len cells - 3)) as [Hlt|Hge].
    + destruct fuel as [|fuel]; [lia|].
      cbn [additional_rows].
      destruct (Z.ltb_spec (3 + 2 * Z.of_nat s) (len cells - 3)); [|lia].
      rewrite !index_in_range by lia. cbn [bind].
      replace (3 + 2 * Z.of_nat s + 2) with (3 + 2 * Z.of_nat (S s)) by lia.
      rewrite IH by lia.
      unfold odd_from; cbn [seq map].
      rewrite filter_cons_True by exact Hlt.
      cbn [map String.concat]. f_equal.
      fold (odd_from (S s) n).
      destruct (map (row_text cells)
                    (filter (fun i => i < len cells - 3) (odd_from (S s) n)))
        as [|r rs] eqn:E.
      * cbn [String.concat]. unfold row_text.
        now rewrite !append_assoc, append_nil_r.
      * cbn [String.concat]. unfold row_text.
        rewrite !append_assoc. reflexivity.
    + rewrite no_rows_beyond by lia. cbn [map String.concat].
      rewrite append_nil_r.
      destruct fuel; cbn [additional_rows];
        (destruct (Z.ltb_spec (3 + 2 * Z.of_nat s) (len cells - 3)); [lia|]);
        reflexivity.
Qed.

(** On four cells, and on an odd number of at least five, the parser
    returns the rendered text and the second-to-last cell. *)
Lemma parse_resolved (cells : list string) :
  len cells = 4 \/ (5 <= len cells /\ Z.odd (len cells) = true) ->
  parse cells = Ret (Resolved (rendered_text cells) (cell cells (len cells - 2))).
Proof.
  intros Hn. unfold parse.
  destruct (Z.eqb_spec (len cells) 0) as [?|_]; [lia|].
  rewrite rem2_odd by apply len_nonneg.
  replace ((len cells <? 4) || (5 <=? len cells) && negb (Z.odd (len cells)))
    with false.
  2:{ symmetry. destruct Hn as [->|[H5 ->]]; [reflexivity|].
      destruct (Z.ltb_spec (len cells) 4); [lia|].
      now rewrite andb_false_r. }
  rewrite (index_in_range cells 1) by lia. cbn [bind].
  rewrite (index_in_range cells 2) by lia. cbn [bind].
  pose proof (additional_rows_spec cells (Z.to_nat (len cells)) 0 (length cells)
                (cell cells 1 +:+ " " +:+ cell cells 2)) as H.
  change (3 + 2 * Z.of_nat 0) with 3 in H.
  rewrite H by (unfold len in *; lia). cbn [bind].
  rewrite index_in_range by lia. cbn [bind].
  reflexivity.
Qed.

(** ** Classification *)

Lemma parse_empty (cells : list string) :
  len cells = 0 -> parse cells = Ret NotYetAvailable.
Proof. intros H. unfold parse. now rewrite H. Qed.

Lemma parse_unrecognized (cells : list string) :
  0 < len cells < 4 \/ (5 <= len cells /\ Z.even (len cells) = true) ->
  parse cells = Ret Unrecognized.
Proof.
  intros H. unfold parse.
  destruct (Z.eqb_spec (len cells) 0) as [?|_]; [lia|].
  rewrite rem2_odd by apply len_nonneg.
  rewrite <- Z.negb_even, negb_involutive.
  destruct H as [H|[H5 ->]].
  - destruct (Z.ltb_spec (len cells) 4); [reflexivity | lia].
  - destruct (Z.leb_spec 5 (len cells)); [|lia].
    now rewrite orb_true_r.
Qed.

(** The three cases of the count cover every sequence. *)
Lemma count_cases (n : Z) :
  0 <= n ->
  n = 0 \/ (0 < n < 4 \/ (5 <= n /\ Z.even n = true))
  \/ (n = 4 \/ (5 <= n /\ Z.odd n = true)).
Proof.
  intros Hn. rewrite <- Z.negb_even.
  destruct (Z.even n); simpl; lia.
Qed.

Lemma even_not_odd (n : Z) : Z.even n = true -> Z.odd n = true -> False.
Proof. rewrite <- Z.negb_even. now intros ->. Qed.

(** C1. The parser classifies a cell sequence as NotYetAvailable exactly
    when it is empty, as Unrecognized exactly when its count is non-zero
    and below 4, or at least 5 and even, and as Resolved exactly when the
    count is 4, or at least 5 and odd; it returns one of the three on
    every sequence. *)
Theorem parse_classification (cells : list string) :
  (parse cells = Ret NotYetAvailable <-> cells = []) /\
  (parse cells = Ret Unrecognized
   <-> (0 < len cells < 4 \/ (5 <= len cells /\ Z.even (len cells) = true))) /\
  ((exists results sample_date, parse cells = Ret (Resolved results sample_date))
   <-> (len cells = 4 \/ (5 <= len cells /\ Z.odd (len cells) = true))).
Proof.
  rewrite <- len_nil_iff.
  destruct (count_cases (len cells) (len_nonneg cells)) as [H0|[Hu|Hr]].
  - rewrite (parse_empty cells H0).
    repeat split; try (intros; assumption || reflexivity || discriminate || lia).
    intros [r [d Hp]]; discriminate.
  - rewrite (parse_unrecognized cells Hu).
    repeat split; try (intros; assumption || reflexivity || discriminate || lia).
    + intros [r [d Hp]]; discriminate.
    + intros Hr; exfalso.
      destruct Hu as [?|[? He]], Hr as [?|[? Ho]]; try lia.
      exact (even_not_odd _ He Ho).
  - rewrite (parse_resolved cells Hr).
    repeat split; try (intros; assumption || reflexivity || discriminate || lia).
    + intros Hu; exfalso.
      destruct Hu as [?|[? He]], Hr as [?|[? Ho]]; try lia.
      exact (even_not_odd _ He Ho).
    + intros _. eauto.
Qed.

(** ** Rendering *)

Lemma row_indices_4 : row_indices 4 = [].
Proof. reflexivity. Qed.

(** C2. On a sequence classified Resolved, the result text is
    cells[1] + " " + cells[2] followed by " | " + cells[i] + " " + cells[i+1]
    for i = 3, 5, 7, ... while i < count - 3, and the sample date is
    cells[count-2]; on four cells there is no such i and the text is the
    header alone. *)
Theorem resolved_rendering (cells : list string) (results sample_date : string) :
  parse cells = Ret (Resolved results sample_date) ->
  results = rendered_text cells /\
  sample_date = cell cells (len cells - 2) /\
  (len cells = 4 ->
   row_indices (len cells) = [] /\
   results = cell cells 1 +:+ " " +:+ cell cells 2).
Proof.
  intros Hp.
  assert (Hr : len cells = 4 \/ (5 <= len cells /\ Z.odd (len cells) = true)).
  { destruct (count_cases (len cells) (len_nonneg cells)) as [H0|[Hu|Hr]];
      [ rewrite (parse_empty cells H0) in Hp; discriminate
      | rewrite (parse_unrecognized cells Hu) in Hp; discriminate
      | exact Hr ]. }
  rewrite (parse_resolved cells Hr) in Hp.
  injection Hp as <- <-.
  split; [reflexivity|]. split; [reflexivity|].
  intros H4. unfold rendered_text. rewrite H4, row_indices_4.
  split; [reflexivity|]. cbn [map String.concat]. apply append_nil_r.
Qed.

Lemma resolved_rendering_witness :
  parse ["s"; "H1"; "H2"; "R1a"; "R1b"; "DATE"; "last"]
  = Ret (Resolved "H1 H2 | R1a R1b" "DATE") /\
  "H1 H2 | R1a R1b" = rendered_text ["s"; "H1"; "H2"; "R1a"; "R1b"; "DATE"; "last"] /\
  "DATE" = cell ["s"; "H1"; "H2"; "R1a"; "R1b"; "DATE"; "last"] 5.
Proof.
  split; [reflexivity|].
  pose proof (resolved_rendering
                ["s"; "H1"; "H2"; "R1a"; "R1b"; "DATE"; "last"]
                "H1 H2 | R1a R1b" "DATE" eq_refl) as [H1 [H2 _]].
  split; [exact H1 | exact H2].
Defined.

(** The two sequences the specification renders by hand. *)
Example parse_four_cells :
  parse ["x"; "HeaderA"; "HeaderB"; "2024-01-01"]
  = Ret (Resolved "HeaderA HeaderB" "HeaderB").
Proof. reflexivity. Qed.

Example parse_seven_cells :
  parse ["s"; "H1"; "H2"; "R1a"; "R1b"; "DATE"; "last"]
  = Ret (Resolved "H1 H2 | R1a R1b" "DATE").
Proof. reflexivity. Qed.

(** ** The extractor's loop *)

Lemma TokenType_eqb_eq (a b : TokenType) : TokenType_eqb a b = true <-> a = b.
Proof. destruct a, b; simpl; split; congruence. Qed.

Lemma is_td_start_iff (tok : Token) : is_td_start tok = true <-> tok = td_start.
Proof.
  unfold is_td_start, td_start. destruct tok as [ty d]; simpl.
  rewrite andb_true_iff, TokenType_eqb_eq, String.eqb_eq.
  split; [intros [-> ->]; reflexivity | intros [= -> ->]; auto].
Qed.

Lemma is_text_iff (tok : Token) :
  TokenType_eqb (Type_ tok) TextToken = true <-> tok = text_token (Data tok).
Proof.
  rewrite TokenType_eqb_eq. unfold text_token. destruct tok as [ty d]; simpl.
  split; [intros ->; reflexivity | intros [= ->]; reflexivity].
Qed.

Lemma is_empty_iff (s : string) : is_empty s = true <-> s = "".
Proof. destruct s; simpl; split; congruence. Qed.

Lemma grab_run_snoc (toks : list Token) (tok : Token) :
  grab_run (toks ++ [tok]) = grab_step (grab_run toks) tok.
Proof. unfold grab_run. now rewrite fold_left_app. Qed.

Lemma grab_step_turn (st : Grab) (tok : Token) : turn st tok (grab_step st tok).
Proof.
  unfold grab_step.
  destruct (is_td_start tok) eqn:Etd.
  - apply is_td_start_iff in Etd. subst tok. simpl. now apply turn_td.
  - assert (Hntd : tok <> td_start).
    { intros H. apply is_td_start_iff in H. congruence. }
    destruct (TokenType_eqb (Type_ tok) TextToken) eqn:Etx; simpl.
    + apply is_text_iff in Etx.
      destruct (grabNextText st) eqn:Eg.
      * destruct (is_empty (TrimSpace (Data tok))) eqn:Ee.
        -- apply is_empty_iff in Ee.
           replace (mkGrab (data st) true) with st by (destruct st; simpl in *; congruence).
           now apply (turn_blank st tok (Data tok)).
        -- apply (turn_emit st tok (Data tok)); [assumption..|].
           intros H. apply is_empty_iff in H. congruence.
      * replace (mkGrab (data st) false) with st by (destruct st; simpl in *; congruence).
        apply turn_skip; [assumption | intros; assumption].
    + replace (mkGrab (data st) (grabNextText st)) with st by (now destruct st).
      apply turn_skip; [assumption|].
      intros t ->. simpl in Etx. discriminate.
Qed.

(** Case analysis on a turn of the loop. *)
Ltac by_turn st tok :=
  let t := fresh "t" in
  destruct (grab_step_turn st tok) as [->|t -> Hg He|t -> Hg Hne|Hntd Hng].

(** ** What arms the flag *)

Lemma armed_app (toks more : list Token) (k : nat) :
  (k <= length toks)%nat -> armed (toks ++ more) k <-> armed toks k.
Proof.
  intros Hk. unfold armed. split; intros [j [Hj [Htd Hbl]]]; exists j.
  - rewrite lookup_app_l in Htd by lia. repeat split; [lia | assumption |].
    intros m t Hm Ht. apply (Hbl m t Hm). rewrite lookup_app_l by lia. exact Ht.
  - rewrite lookup_app_l by lia. repeat split; [lia | assumption |].
    intros m t Hm Ht. apply (Hbl m t Hm). rewrite lookup_app_l in Ht by lia. exact Ht.
Qed.

Lemma emitted_at_app (toks more : list Token) (k : nat) (d : string) :
  (k < length toks)%nat -> emitted_at toks k d -> emitted_at (toks ++ more) k d.
Proof.
  intros Hk [t [Ht [Hd [Hne Ha]]]]. exists t.
  rewrite lookup_app_l by lia. repeat split; try assumption.
  apply armed_app; [lia | assumption].
Qed.

Lemma lookup_snoc_last (toks : list Token) (tok : Token) :
  (toks ++ [tok]) !! length toks = Some tok.
Proof.
  rewrite lookup_app_r by lia. now rewrite Nat.sub_diag.
Qed.

(** After a [td] start tag the flag is up. *)
Lemma armed_by_td (toks : list Token) :
  armed (toks ++ [td_start]) (S (length toks)).
Proof.
  exists (length toks). split; [lia|]. split; [apply lookup_snoc_last|].
  intros m t Hm. lia.
Qed.

(** A token other than a [td] start tag leaves the flag up when it was up
    and the token is no text, or a text that trims to nothing. *)
Lemma armed_kept (toks : list Token) (tok : Token) :
  armed toks (length toks) ->
  (forall t, tok = text_token t -> TrimSpace t = "") ->
  armed (toks ++ [tok]) (S (length toks)).
Proof.
  intros [j [Hj [Htd Hbl]]] Htok. exists j.
  split; [lia|]. split; [now rewrite lookup_app_l by lia|].
  intros m t Hm Ht.
  destruct (decide (m = length toks)) as [->|Hne].
  - rewrite lookup_snoc_last in Ht. injection Ht as ->. now apply Htok.
  - rewrite lookup_app_l in Ht by lia. apply (Hbl m t); [lia | assumption].
Qed.

(** Only a [td] start tag raises it, and a non-empty text lowers it. *)
Lemma armed_before (toks : list Token) (tok : Token) :
  tok <> td_start ->
  armed (toks ++ [tok]) (S (length toks)) ->
  armed toks (length toks)
  /\ forall t, tok = text_token t -> TrimSpace t = "".
Proof.
  intros Hntd [j [Hj [Htd Hbl]]].
  assert (Hlt : (j < length toks)%nat).
  { destruct (decide (j = length toks)) as [->|]; [|lia].
    rewrite lookup_snoc_last in Htd. congruence. }
  split.
  - exists j. split; [assumption|].
    split; [now rewrite lookup_app_l in Htd by lia|].
    intros m t Hm Ht. apply (Hbl m t); [lia|]. now rewrite lookup_app_l by lia.
  - intros t ->. apply (Hbl (length toks) t); [lia | apply lookup_snoc_last].
Qed.

Lemma not_armed_nil : ~ armed [] 0.
Proof. intros [j [Hj _]]. lia. Qed.

(** The flag is up exactly when the stream read so far is armed. *)
Lemma grab_flag_armed (toks : list Token) :
  grabNextText (grab_run toks) = true <-> armed toks (length toks).
Proof.
  induction toks as [|tok toks IH] using rev_ind.
  - simpl. split; [discriminate | intros H; destruct (not_armed_nil H)].
  - rewrite grab_run_snoc, length_app, Nat.add_1_r.
    by_turn (grab_run toks) tok.
    + simpl. split; [intros _; apply armed_by_td | reflexivity].
    + split; [intros _ | intros _; exact Hg].
      apply armed_kept; [now apply IH|]. now intros t' [= <-].
    + simpl. split; [discriminate|]. intros Ha.
      apply armed_before in Ha as [_ Ha]; [|discriminate].
      destruct (Hne (Ha t eq_refl)).
    + split.
      * intros Hg. apply armed_kept; [now apply IH|].
        intros t ->. rewrite (Hng t eq_refl) in Hg. discriminate.
      * intros Ha. apply armed_before in Ha as [Ha _]; [|assumption].
        now apply IH.
Qed.

(** ** What is emitted, and where *)

Lemma StronglySorted_snoc (ks : list nat) (n : nat) :
  StronglySorted lt ks -> Forall (fun k => (k < n)%nat) ks ->
  StronglySorted lt (ks ++ [n]).
Proof.
  induction 1 as [|k ks Hs IH Hk]; intros Hn; simpl.
  - repeat constructor.
  - inversion Hn; subst. constructor; [now apply IH|].
    apply Forall_app; split; [assumption | now repeat constructor].
Qed.

Lemma emitted_at_prefix (toks more : list Token) (k : nat) (d : string) :
  (k < length toks)%nat -> emitted_at (toks ++ more) k d -> emitted_at toks k d.
Proof.
  intros Hk [t [Ht [Hd [Hne Ha]]]]. exists t.
  rewrite lookup_app_l in Ht by lia. repeat split; try assumption.
  apply armed_app in Ha; [assumption | lia].
Qed.

Lemma emitted_at_bound (toks : list Token) (k : nat) (d : string) :
  emitted_at toks k d -> (k < length toks)%nat.
Proof. intros [t [Ht _]]. now apply lookup_lt_Some in Ht. Qed.

(** The cells are the texts at the emitting positions, all of them, in
    increasing order. *)
Lemma emitted_positions (toks : list Token) :
  exists ks, StronglySorted lt ks
             /\ Forall (fun k => (k < length toks)%nat) ks
             /\ Forall2 (emitted_at toks) ks (cells_of toks)
             /\ forall k d, emitted_at toks k d -> k ∈ ks.
Proof.
  unfold cells_of.
  induction toks as [|tok toks IH] using rev_ind.
  - exists []. repeat split; try constructor.
    intros k d H. apply emitted_at_bound in H. simpl in H. lia.
  - destruct IH as [ks [Hs [Hb [Hf Hall]]]].
    assert (Hb' : Forall (fun k => (k < length (toks ++ [tok]))%nat) ks).
    { rewrite length_app. eapply Forall_impl; [exact Hb|]. simpl; intros; lia. }
    assert (Hf' : Forall2 (emitted_at (toks ++ [tok])) ks (data (grab_run toks))).
    { clear Hs Hb' Hall. revert Hb. induction Hf as [|k d ks ds Hkd Hf IHf]; intros Hb.
      - constructor.
      - inversion Hb; subst.
        constructor; [now apply emitted_at_app | now apply IHf]. }
    assert (Hold : forall k d, emitted_at (toks ++ [tok]) k d ->
                               k <> length toks -> k ∈ ks).
    { intros k d H Hk. pose proof (emitted_at_bound _ _ _ H) as Hlt.
      rewrite length_app in Hlt. simpl in Hlt.
      apply (Hall k d). apply emitted_at_prefix in H; [assumption | lia]. }
    assert (Hlast : forall d, emitted_at (toks ++ [tok]) (length toks) d ->
                              exists t, tok = text_token t /\ TrimSpace t <> ""
                                        /\ grabNextText (grab_run toks) = true).
    { intros d [t [Ht [Hd [Hne Ha]]]]. rewrite lookup_snoc_last in Ht.
      injection Ht as ->. exists t. subst d. repeat split; [assumption|].
      apply grab_flag_armed. apply armed_app in Ha; [assumption | lia]. }
    rewrite grab_run_snoc.
    by_turn (grab_run toks) tok;
      simpl.
    + exists ks. repeat split; try assumption. intros k d H.
      destruct (decide (k = length toks)) as [->|Hk]; [|now apply (Hold k d)].
      apply Hlast in H as [t [E _]]. discriminate.
    + exists ks. repeat split; try assumption. intros k d H.
      destruct (decide (k = length toks)) as [->|Hk]; [|now apply (Hold k d)].
      apply Hlast in H as [t' [[= <-] [Hne _]]]. contradiction.
    + exists (ks ++ [length toks]). split; [now apply StronglySorted_snoc|].
      split; [|split].
      * apply Forall_app; split; [assumption|].
        repeat constructor. rewrite length_app; simpl; lia.
      * apply Forall2_app; [assumption|]. repeat constructor.
        exists t. split; [apply lookup_snoc_last|].
        repeat split; [assumption|].
        apply armed_app; [lia|]. now apply grab_flag_armed.
      * intros k d H. apply elem_of_app.
        destruct (decide (k = length toks)) as [->|Hk];
          [right; constructor | left; now apply (Hold k d)].
    + exists ks. repeat split; try assumption. intros k d H.
      destruct (decide (k = length toks)) as [->|Hk]; [|now apply (Hold k d)].
      apply Hlast in H as [t [-> [_ Hg]]]. rewrite (Hng t eq_refl) in Hg. discriminate.
Qed.

Lemma text_is_no_td (t : string) : is_td_start (text_token t) = false.
Proof. reflexivity. Qed.

Lemma grab_step_blank (st : Grab) (t : string) :
  grabNextText st = true -> TrimSpace t = "" -> grab_step st (text_token t) = st.
Proof.
  intros Hg He. unfold grab_step. rewrite text_is_no_td, Hg. simpl.
  rewrite He. simpl. destruct st; simpl in *; congruence.
Qed.

Lemma grab_step_text (st : Grab) (t : string) :
  grabNextText st = true -> TrimSpace t <> "" ->
  grab_step st (text_token t) = mkGrab (data st ++ [TrimSpace t]) false.
Proof.
  intros Hg Hne. unfold grab_step. rewrite text_is_no_td, Hg. simpl.
  destruct (is_empty (TrimSpace t)) eqn:E; [|reflexivity].
  apply is_empty_iff in E. contradiction.
Qed.

(** C3, as the code has it.  At end of input [getAllTDs] returns the cells
    collected; they are, in document order, the trimmed and non-empty texts
    of the text tokens that follow a [td] start tag with nothing but blank
    text tokens in between, of all of these and of no other, whether or not
    the cell has been closed by then.  While the flag is up a text that
    trims to nothing changes nothing, and the next text that does not is
    emitted and lowers the flag. *)
Theorem getAllTDs_cells (toks : list Token) :
  getAllTDs (mkTokenizer toks EOF) = Cells (cells_of toks) /\
  (exists ks, StronglySorted lt ks
              /\ Forall2 (emitted_at toks) ks (cells_of toks)
              /\ forall k d, emitted_at toks k d -> k ∈ ks) /\
  (forall st t, grabNextText st = true -> TrimSpace t = "" ->
                grab_step st (text_token t) = st) /\
  (forall st t, grabNextText st = true -> TrimSpace t <> "" ->
                grab_step st (text_token t)
                = mkGrab (data st ++ [TrimSpace t]) false).
Proof.
  split; [reflexivity|]. split.
  - destruct (emitted_positions toks) as [ks [Hs [_ [Hf Hall]]]]. now exists ks.
  - split; [exact grab_step_blank | exact grab_step_text].
Qed.

(** C3, as stated, fails on [<td></td>hello]: the text after the closed,
    empty cell is emitted although it lies in no table cell. *)
Lemma text_outside_cell_emitted :
  getAllTDs (mkTokenizer empty_cell_then_text EOF) = Cells ["hello"] /\
  in_table_cell empty_cell_then_text 2 = false /\
  ~ emitted_inside_cells empty_cell_then_text.
Proof.
  split; [reflexivity|]. split; [reflexivity|].
  intros H.
  assert (Hd : "hello" ∈ cells_of empty_cell_then_text) by (vm_compute; left).
  destruct (H "hello" Hd) as [k [t [Hk [Hin _]]]].
  destruct k as [|[|[|k]]]; simpl in Hk; discriminate.
Qed.

(** ** Nothing but a td start tag sets the flag *)

Lemma not_armed_without_td (toks : list Token) (k : nat) :
  td_start ∉ toks -> ~ armed toks k.
Proof.
  intros Hno [j [_ [Htd _]]]. apply Hno. eapply list_elem_of_lookup_2. exact Htd.
Qed.

Lemma silent_unless_armed (toks : list Token) (tok : Token) :
  ~ armed toks (length toks) -> cells_of (toks ++ [tok]) = cells_of toks.
Proof.
  intros Hna. unfold cells_of. rewrite grab_run_snoc.
  by_turn (grab_run toks) tok;
    try reflexivity.
  destruct Hna. now apply grab_flag_armed.
Qed.

Lemma no_td_no_cells (toks : list Token) : td_start ∉ toks -> cells_of toks = [].
Proof.
  induction toks as [|tok toks IH] using rev_ind; intros Hno; [reflexivity|].
  assert (Hno' : td_start ∉ toks).
  { intros H. apply Hno. apply elem_of_app. now left. }
  rewrite silent_unless_armed by now apply not_armed_without_td.
  now apply IH.
Qed.

(** C10. A turn of the loop leaves the flag up only if it was up or the
    token is a start tag named "td"; so the flag is up exactly when a td
    start tag has been read and no non-empty text since.  When it is down
    the next token, whatever it is, adds no cell, and a document without a
    td start tag (header cells only, say) yields no cell at all. *)
Theorem capture_set_by_td_only :
  (forall st tok, grabNextText (grab_step st tok) = true ->
                  grabNextText st = true \/ tok = td_start) /\
  (forall toks, grabNextText (grab_run toks) = true <-> armed toks (length toks)) /\
  (forall toks tok, ~ armed toks (length toks) ->
                    cells_of (toks ++ [tok]) = cells_of toks) /\
  (forall toks, td_start ∉ toks -> cells_of toks = []).
Proof.
  split; [|split; [exact grab_flag_armed
                  |split; [exact silent_unless_armed | exact no_td_no_cells]]].
  intros st tok.
  by_turn st tok; simpl; auto.
Qed.

(** [<th>Name</th><td>x</td>]: the header cell is passed over. *)
Example header_cell_skipped :
  cells_of [mkToken StartTagToken "th"; text_token "Name"; mkToken EndTagToken "th";
            td_start; text_token "x"; mkToken EndTagToken "td"] = ["x"].
Proof. reflexivity. Qed.

(** [<td></td><th>Head</th>]: the flag left up by the empty cell takes the
    header's text. *)
Example header_cell_after_empty_td :
  cells_of [td_start; mkToken EndTagToken "td";
            mkToken StartTagToken "th"; text_token "Head"; mkToken EndTagToken "th"]
  = ["Head"].
Proof. reflexivity. Qed.

(** ** The fixture, scraped then parsed *)

Example fixture_tokens :
  tokenize fixture
  = Some [mkToken StartTagToken "table"; mkToken StartTagToken "tr";
          td_start; text_token "a"; mkToken EndTagToken "td";
          td_start; text_token "H1"; mkToken EndTagToken "td";
          td_start; text_token "H2"; mkToken EndTagToken "td";
          td_start; text_token "2024-01-01"; mkToken EndTagToken "td";
          mkToken EndTagToken "tr"; mkToken EndTagToken "table"].
Proof. reflexivity. Qed.

(** Tag names come out in lower case, text as it stands. *)
Example tokenize_mixed_case :
  tokenize "<TD> x </Td>y<br/>"
  = Some [td_start; text_token " x "; mkToken EndTagToken "td";
          text_token "y"; mkToken SelfClosingTagToken "br"].
Proof. reflexivity. Qed.

(** C8. The fixture tokenizes; [getAllTDs] extracts from it the four cells
    "a", "H1", "H2", "2024-01-01"; the parser classifies them Resolved with
    the text "H1 H2", in which " | " does not occur, and with the sample
    date taken from the second-to-last cell, the one at index 2. *)
Theorem fixture_round_trip :
  exists h,
    NewTokenizer fixture = Some h /\
    getAllTDs h = Cells ["a"; "H1"; "H2"; "2024-01-01"] /\
    parse ["a"; "H1"; "H2"; "2024-01-01"] = Ret (Resolved "H1 H2" "H2") /\
    String.index 0 " | " "H1 H2" = None /\
    len ["a"; "H1"; "H2"; "2024-01-01"] - 2 = 2 /\
    index ["a"; "H1"; "H2"; "2024-01-01"] 2 = Ret "H2".
Proof.
  eexists. split; [reflexivity|].
  repeat split; reflexivity.
Qed.

(** ** What LIKE '%pending%' matches *)

Lemma like_any (p s : string) :
  like (String "%" p) s = true
  <-> exists pre suf, s = pre +:+ suf /\ like p suf = true.
Proof.
  cbn [like]. change (Ascii.eqb "%" "%") with true. cbv iota.
  induction s as [|c s IH].
  - rewrite orb_false_r. split.
    + intros H. now exists "", "".
    + intros [pre [suf [E H]]]. destruct pre; [|discriminate].
      change ("" +:+ suf) with suf in E. now subst suf.
  - rewrite orb_true_iff, IH. split.
    + intros [H|[pre [suf [-> H]]]].
      * now exists "", (String c s).
      * now exists (String c pre), suf.
    + intros [pre [suf [E H]]]. destruct pre as [|c' pre].
      * left. change ("" +:+ suf) with suf in E. now subst suf.
      * right. change (String c' pre +:+ suf) with (String c' (pre +:+ suf)) in E.
        injection E as -> ->. now exists pre, suf.
Qed.

Lemma like_literal (pc : ascii) (p s : string) :
  Ascii.eqb pc "%" = false -> Ascii.eqb pc "_" = false ->
  like (String pc p) s = true
  <-> exists c s', s = String c s' /\ lower pc = lower c /\ like p s' = true.
Proof.
  intros H1 H2. cbn [like]. rewrite H1, H2. destruct s as [|c s].
  - split; [discriminate | intros [c [s' [E _]]]; discriminate].
  - rewrite andb_true_iff, Ascii.eqb_eq. split.
    + intros [Hc Hp]. now exists c, s.
    + intros [c' [s' [[= -> ->] [Hc Hp]]]]. now split.
Qed.

Lemma fold_case_nil (s : string) : fold_case s = "" -> s = "".
Proof. destruct s; [reflexivity | discriminate]. Qed.

Lemma like_literal_prefix (q p s : string) :
  literal q = true ->
  like (q +:+ p) s = true
  <-> exists mid rest, s = mid +:+ rest /\ fold_case mid = fold_case q
                       /\ like p rest = true.
Proof.
  revert s. induction q as [|pc q IH]; intros s Hq.
  - change ("" +:+ p) with p. split.
    + intros H. now exists "", s.
    + intros [mid [rest [-> [Hm H]]]]. apply fold_case_nil in Hm. now subst mid.
  - simpl in Hq. apply andb_true_iff in Hq as [Hq Hq'].
    apply andb_true_iff in Hq as [H1 H2].
    apply negb_true_iff in H1, H2.
    change (String pc q +:+ p) with (String pc (q +:+ p)).
    rewrite (like_literal pc _ s H1 H2). split.
    + intros [c [s' [-> [Hc Hl]]]]. apply (IH s' Hq') in Hl as [mid [rest [-> [Hm Hl]]]].
      exists (String c mid), rest. repeat split; [|assumption].
      simpl. now rewrite Hm, Hc.
    + intros [mid [rest [-> [Hm Hl]]]]. destruct mid as [|c mid]; [discriminate|].
      simpl in Hm. injection Hm as Hc Hm.
      exists c, (mid +:+ rest). repeat split; [now symmetry|].
      apply (IH _ Hq'). now exists mid, rest.
Qed.

Lemma like_percent (s : string) : like "%" s = true.
Proof. apply like_any. exists s, "". now rewrite append_nil_r. Qed.

Lemma like_pending_iff (s : string) :
  like "%pending%" s = true
  <-> exists pre mid suf, s = pre +:+ mid +:+ suf /\ fold_case mid = "pending".
Proof.
  rewrite like_any. split.
  - intros [pre [rest [-> H]]].
    apply (like_literal_prefix "pending" "%" rest eq_refl) in H
      as [mid [suf [-> [Hm _]]]].
    now exists pre, mid, suf.
  - intros [pre [mid [suf [-> Hm]]]]. exists pre, (mid +:+ suf). split; [reflexivity|].
    apply (like_literal_prefix "pending" "%" _ eq_refl).
    exists mid, suf. repeat split; [assumption | apply like_percent].
Qed.

Lemma results_like_pending_iff (r : Sample) :
  results_like_pending r = true
  <-> exists s, Results r = Some s /\ contains_pending s.
Proof.
  unfold results_like_pending, contains_pending.
  destruct (Results r) as [s|].
  - rewrite like_pending_iff. split.
    + intros H. now exists s.
    + now intros [s' [[= <-] H]].
  - split; [discriminate | intros [s [E _]]; discriminate].
Qed.

(** ** The samples of a pass *)

Lemma elem_of_select_pending (db : DB) (r : Sample) :
  r ∈ select_pending db <-> results_like_pending r = true /\ r ∈ db.
Proof.
  unfold select_pending. rewrite !list_elem_of_In, filter_In. tauto.
Qed.

(** C4, as the code has it.  A pass handles the samples of its query, and
    a row is among them exactly when the query succeeds and the row's
    results contain "pending": as a substring, in any ASCII letter case. *)
Theorem pending_selection (people : list ConfigPerson.t) (env : PassEnv) (db : DB) :
  updatePending people env db
  = update_loop people (Call env) 0 db (samples_of env db) /\
  forall r, r ∈ samples_of env db
            <-> QueryFails env = false /\ r ∈ db
                /\ exists s, Results r = Some s /\ contains_pending s.
Proof.
  unfold updatePending, samples_of. destruct (QueryFails env).
  - split; [reflexivity|]. intros r. split.
    + intros H. inversion H.
    + intros [H _]. discriminate.
  - split; [reflexivity|]. intros r.
    rewrite elem_of_select_pending, results_like_pending_iff. tauto.
Qed.

(** C4, as stated, fails on the table the first pass leaves when the
    portal reports "Result pending": the row is selected again although
    its results are not the sentinel. *)
Lemma substring_selected :
  periodicallyUpdate roster first_pass [] one_pending
  = Running [ {| Name := "Ann"; Barcode := "B1"; Results := Some "Result pending";
                 CreatedTime := Some 100; UpdatedTime := Some 200;
                 SampleDate := Some "pending" |} ] /\
  samples_of second_pass (store (updatePending roster first_pass one_pending))
  = store (updatePending roster first_pass one_pending) /\
  ~ selects_the_sentinel second_pass
      (store (updatePending roster first_pass one_pending)).
Proof.
  split; [reflexivity|]. split; [reflexivity|].
  intros H.
  set (r := {| Name := "Ann"; Barcode := "B1"; Results := Some "Result pending";
               CreatedTime := Some 100; UpdatedTime := Some 200;
               SampleDate := Some "pending" |}).
  destruct (proj1 (H r)) as [_ Hr].
  - vm_compute. left.
  - discriminate.
Qed.

(** ** updateOne, case by case *)

Lemma is_empty_false_iff (s : string) : is_empty s = false <-> s <> "".
Proof. destruct s; simpl; split; congruence. Qed.

Lemma updateOne_commit (people : list ConfigPerson.t) (w : World) (db : DB)
      (smpl : Sample) (results sample_date : string) :
  reaches_update people w smpl results sample_date ->
  ExecFails w = false ->
  updateOne people w db smpl
  = (fst (update_samples db results (Now w) sample_date (Barcode smpl)),
     if len (List.filter (has_barcode (Barcode smpl)) db) =? 1
     then Updated
     else Fatal (len (List.filter (has_barcode (Barcode smpl)) db))).
Proof.
  intros [Hdob [h [cells [Hpost [Hcells Hparse]]]]] Hexec.
  unfold updateOne. apply is_empty_false_iff in Hdob.
  rewrite Hdob, Hpost, Hcells, Hparse, Hexec. cbn [update_samples fst].
  now destruct (len (List.filter (has_barcode (Barcode smpl)) db) =? 1).
Qed.

Lemma updateOne_soft (people : list ConfigPerson.t) (w : World) (db : DB)
      (smpl : Sample) (o : Outcome) :
  SoftFailure people w smpl o -> updateOne people w db smpl = (db, o).
Proof.
  unfold updateOne.
  destruct 1 as [Hdob|msg Hdob Hpost|h e Hdob Hpost Hs|h Hdob Hpost Hs
                |h cells Hdob Hpost Hs Hn];
    [|apply is_empty_false_iff in Hdob..].
  - now rewrite Hdob.
  - now rewrite Hdob, Hpost.
  - now rewrite Hdob, Hpost, Hs.
  - now rewrite Hdob, Hpost, Hs.
  - now rewrite Hdob, Hpost, Hs, (parse_unrecognized cells Hn).
Qed.

Lemma soft_goes_on (people : list ConfigPerson.t) (w : World) (smpl : Sample)
      (o : Outcome) :
  SoftFailure people w smpl o -> terminates o = false.
Proof. now destruct 1. Qed.

Lemma update_loop_cons (people : list ConfigPerson.t) (call : nat -> World)
      (k : nat) (db db' : DB) (smpl : Sample) (rest : list Sample) (o : Outcome) :
  updateOne people (call k) db smpl = (db', o) ->
  update_loop people call k db (smpl :: rest)
  = if terminates o then mkPass db' [o] true
    else mkPass (store (update_loop people call (S k) db' rest))
                (o :: outcomes (update_loop people call (S k) db' rest))
                (exited (update_loop people call (S k) db' rest)).
Proof. intros H. cbn [update_loop]. now rewrite H. Qed.

(** A pass that is not cut short has handled every one of its samples. *)
Lemma pass_handles_all (people : list ConfigPerson.t) (call : nat -> World)
      (samples : list Sample) :
  forall (k : nat) (db : DB),
    exited (update_loop people call k db samples) = false ->
    length (outcomes (update_loop people call k db samples)) = length samples.
Proof.
  induction samples as [|smpl rest IH]; intros k db Hex; [reflexivity|].
  destruct (updateOne people (call k) db smpl) as [db' o] eqn:E.
  rewrite (update_loop_cons _ _ _ _ _ _ _ _ E) in *.
  destruct (terminates o); [discriminate|].
  cbn [outcomes exited length] in *. f_equal. now apply IH.
Qed.

(** C6. After a commit the store has accepted, [updateOne] ends by
    [log.Fatalf] exactly when the number of rows affected is not one; when
    it is one the call returns and the loop of the pass goes on with the
    next sample, when it is not the pass ends there, the process with it. *)
Theorem affected_rows_check (people : list ConfigPerson.t) (w : World) (db : DB)
        (smpl : Sample) (results sample_date : string) :
  reaches_update people w smpl results sample_date ->
  ExecFails w = false ->
  let db' := fst (update_samples db results (Now w) sample_date (Barcode smpl)) in
  let num := snd (update_samples db results (Now w) sample_date (Barcode smpl)) in
  updateOne people w db smpl = (db', if num =? 1 then Updated else Fatal num) /\
  (terminates (snd (updateOne people w db smpl)) = true <-> num <> 1) /\
  forall (call : nat -> World) (k : nat) (rest : list Sample),
    call k = w ->
    update_loop people call k db (smpl :: rest)
    = if num =? 1
      then mkPass (store (update_loop people call (S k) db' rest))
                  (Updated :: outcomes (update_loop people call (S k) db' rest))
                  (exited (update_loop people call (S k) db' rest))
      else mkPass db' [Fatal num] true.
Proof.
  intros Hreach Hexec db' num.
  pose proof (updateOne_commit people w db smpl results sample_date Hreach Hexec) as H.
  fold db' in H. change (len (List.filter (has_barcode (Barcode smpl)) db)) with num in H.
  split; [exact H|]. split.
  - rewrite H. cbn [snd]. destruct (Z.eqb_spec num 1) as [E|E]; simpl.
    + split; [discriminate | intros; contradiction].
    + split; [intros _; exact E | reflexivity].
  - intros call k rest Hw. cbn [update_loop]. rewrite Hw, H.
    now destruct (num =? 1).
Qed.

Lemma affected_rows_check_witness :
  reaches_update roster (Call first_pass 0%nat)
                 {| Name := "Ann"; Barcode := "B1"; Results := Some "pending";
                    CreatedTime := Some 100; UpdatedTime := Some 100;
                    SampleDate := None |}
                 "Result pending" "pending" /\
  ExecFails (Call first_pass 0%nat) = false /\
  (terminates (snd (updateOne roster (Call first_pass 0%nat) one_pending
                              {| Name := "Ann"; Barcode := "B1";
                                 Results := Some "pending";
                                 CreatedTime := Some 100; UpdatedTime := Some 100;
                                 SampleDate := None |})) = true
   <-> snd (update_samples one_pending "Result pending" 200 "pending" "B1") <> 1).
Proof.
  assert (Hr : reaches_update roster (Call first_pass 0%nat)
                 {| Name := "Ann"; Barcode := "B1"; Results := Some "pending";
                    CreatedTime := Some 100; UpdatedTime := Some 100;
                    SampleDate := None |}
                 "Result pending" "pending").
  { split; [discriminate|]. eexists _, _. repeat split; reflexivity. }
  split; [exact Hr|]. split; [reflexivity|].
  exact (proj1 (proj2 (affected_rows_check roster (Call first_pass 0%nat) one_pending
                         _ "Result pending" "pending" Hr eq_refl))).
Defined.

(** C7. A soft failure of [updateOne] (no roster entry, network error,
    tokenizer error, no cell yet, unrecognized cell count) leaves the table
    as it was, so the sample's row is unchanged and a later query selects
    what it would have selected before, and it does not end the pass: the
    loop goes on with the next sample.  A pass that is not cut short has
    handled all its samples. *)
Theorem soft_failure_contained (people : list ConfigPerson.t) (w : World)
        (db : DB) (smpl : Sample) (o : Outcome) :
  SoftFailure people w smpl o ->
  updateOne people w db smpl = (db, o) /\
  (forall env, samples_of env (fst (updateOne people w db smpl)) = samples_of env db) /\
  terminates o = false /\
  (forall (call : nat -> World) (k : nat) (rest : list Sample),
      call k = w ->
      update_loop people call k db (smpl :: rest)
      = mkPass (store (update_loop people call (S k) db rest))
               (o :: outcomes (update_loop people call (S k) db rest))
               (exited (update_loop people call (S k) db rest))) /\
  (forall (call : nat -> World) (k : nat) (samples : list Sample),
      exited (update_loop people call k db samples) = false ->
      length (outcomes (update_loop people call k db samples)) = length samples).
Proof.
  intros Hs.
  pose proof (updateOne_soft people w db smpl o Hs) as H.
  pose proof (soft_goes_on people w smpl o Hs) as Ht.
  split; [exact H|]. split; [now rewrite H|]. split; [exact Ht|]. split.
  - intros call k rest Hw. cbn [update_loop]. now rewrite Hw, H, Ht.
  - intros call k samples. apply pass_handles_all.
Qed.

Lemma soft_failure_contained_witness :
  SoftFailure [] (Call first_pass 0%nat)
              {| Name := "Ann"; Barcode := "B1"; Results := Some "pending";
                 CreatedTime := Some 100; UpdatedTime := Some 100;
                 SampleDate := None |} NoMatch /\
  updateOne [] (Call first_pass 0%nat) one_pending
            {| Name := "Ann"; Barcode := "B1"; Results := Some "pending";
               CreatedTime := Some 100; UpdatedTime := Some 100;
               SampleDate := None |} = (one_pending, NoMatch).
Proof.
  assert (Hs : SoftFailure [] (Call first_pass 0%nat)
                 {| Name := "Ann"; Barcode := "B1"; Results := Some "pending";
                    CreatedTime := Some 100; UpdatedTime := Some 100;
                    SampleDate := None |} NoMatch)
    by (apply soft_no_match; reflexivity).
  split; [exact Hs|].
  exact (proj1 (soft_failure_contained [] (Call first_pass 0%nat) one_pending _ _ Hs)).
Defined.

(** ** Rows and barcodes under the UPDATE *)

Lemma lookup_update_samples (db : DB) (results : string) (t : Time)
      (sample_date barcode : string) (i : nat) :
  fst (update_samples db results t sample_date barcode) !! i
  = (fun r => if has_barcode barcode r
              then set_result results t sample_date r else r) <$> db !! i.
Proof. unfold update_samples. cbn [fst]. apply list_lookup_fmap. Qed.

Lemma one_row_affected (db : DB) (barcode : string) (x : Sample) :
  x ∈ db -> has_barcode barcode x = true ->
  (1 <= length (List.filter (has_barcode barcode) db))%nat.
Proof.
  intros Hin Hx.
  assert (H : In x (List.filter (has_barcode barcode) db)).
  { apply filter_In. split; [now apply list_elem_of_In | assumption]. }
  destruct (List.filter (has_barcode barcode) db); [destruct H | simpl; lia].
Qed.

Lemma two_rows_affected (db : DB) (barcode : string) :
  forall (i j : nat) (x y : Sample),
    i <> j -> db !! i = Some x -> db !! j = Some y ->
    has_barcode barcode x = true -> has_barcode barcode y = true ->
    2 <= len (List.filter (has_barcode barcode) db).
Proof.
  unfold len.
  induction db as [|r db IH]; intros i j x y Hij Hi Hj Hx Hy; [discriminate|].
  destruct i as [|i], j as [|j]; simpl in Hi, Hj; [congruence| | |].
  - injection Hi as ->. cbn [List.filter]. rewrite Hx.
    pose proof (one_row_affected db barcode y (list_elem_of_lookup_2 _ _ _ Hj) Hy).
    cbn [length]. lia.
  - injection Hj as ->. cbn [List.filter]. rewrite Hy.
    pose proof (one_row_affected db barcode x (list_elem_of_lookup_2 _ _ _ Hi) Hx).
    cbn [length]. lia.
  - assert (Hij' : i <> j) by congruence.
    pose proof (IH i j x y Hij' Hi Hj Hx Hy).
    cbn [List.filter]. destruct (has_barcode barcode r); cbn [length]; lia.
Qed.

(** What a call of [updateOne] can do to the table. *)
Lemma updateOne_inv (people : list ConfigPerson.t) (w : World) (db db' : DB)
      (smpl : Sample) (o : Outcome) :
  updateOne people w db smpl = (db', o) ->
  db' = db
  \/ exists results sample_date,
      db' = fst (update_samples db results (Now w) sample_date (Barcode smpl))
      /\ (terminates o = false ->
          len (List.filter (has_barcode (Barcode smpl)) db) = 1).
Proof.
  unfold updateOne.
  destruct (is_empty _); [intros [= <- <-]; now left|].
  destruct (PostForm _ _ _) as [msg|h]; [intros [= <- <-]; now left|].
  destruct (getAllTDs h) as [cells|e]; [|intros [= <- <-]; now left].
  destruct (parse cells) as [[| |results sample_date]| |];
    try (intros [= <- <-]; now left).
  destruct (ExecFails w); [intros [= <- <-]; now left|].
  cbn [update_samples].
  destruct (Z.eqb_spec (len (List.filter (has_barcode (Barcode smpl)) db)) 1) as [E|E];
    simpl; intros [= <- <-]; right; exists results, sample_date;
    (split; [reflexivity|]); [intros _; exact E | discriminate].
Qed.

Lemma updateOne_keeps_barcodes (people : list ConfigPerson.t) (w : World)
      (db db' : DB) (smpl : Sample) (o : Outcome) (j : nat) (x : Sample) :
  updateOne people w db smpl = (db', o) ->
  db !! j = Some x ->
  exists x', db' !! j = Some x' /\ Barcode x' = Barcode x.
Proof.
  intros H Hj. apply updateOne_inv in H as [->|[results [sample_date [-> _]]]].
  - now exists x.
  - rewrite lookup_update_samples, Hj. cbn [fmap option_fmap option_map].
    eexists. split; [reflexivity|]. now destruct (has_barcode _ x).
Qed.

Lemma updateOne_keeps_row (people : list ConfigPerson.t) (w : World)
      (db db' : DB) (smpl : Sample) (o : Outcome) (i j : nat) (r x : Sample) :
  updateOne people w db smpl = (db', o) ->
  terminates o = false ->
  db !! i = Some r -> db !! j = Some x -> j <> i ->
  Barcode x = Barcode smpl ->
  db' !! i = Some r.
Proof.
  intros H Ht Hi Hj Hji Hb.
  apply updateOne_inv in H as [->|[results [sample_date [-> Hone]]]]; [assumption|].
  specialize (Hone Ht).
  rewrite lookup_update_samples, Hi. cbn [fmap option_fmap option_map].
  destruct (has_barcode (Barcode smpl) r) eqn:Hr; [|reflexivity].
  assert (Hx : has_barcode (Barcode smpl) x = true).
  { unfold has_barcode. now apply String.eqb_eq. }
  pose proof (two_rows_affected db (Barcode smpl) j i x r Hji Hj Hi Hx Hr). lia.
Qed.

(** A call made for a sample whose barcode the row at another place [j]
    carries leaves the row at [i] as it is, or rewrites it beside that
    row. *)
Lemma updateOne_row_fate (people : list ConfigPerson.t) (w : World)
      (db db' : DB) (smpl : Sample) (o : Outcome) (i j : nat) (r x : Sample) :
  updateOne people w db smpl = (db', o) ->
  db !! i = Some r -> db !! j = Some x -> j <> i ->
  Barcode x = Barcode smpl ->
  db' !! i = Some r \/ rewritten_beside i r db'.
Proof.
  intros H Hi Hj Hji Hb.
  apply updateOne_inv in H as [->|[results [sample_date [-> _]]]]; [now left|].
  destruct (has_barcode (Barcode smpl) r) eqn:Hr.
  - right. exists j, (set_result results (Now w) sample_date x),
             results, (Now w), sample_date.
    assert (Hx : has_barcode (Barcode smpl) x = true).
    { unfold has_barcode. now apply String.eqb_eq. }
    apply String.eqb_eq in Hr.
    rewrite !lookup_update_samples, Hi, Hj.
    cbn [fmap option_fmap option_map]. rewrite Hx.
    unfold has_barcode. rewrite (proj2 (String.eqb_eq _ _) Hr).
    repeat split; try reflexivity; [assumption | cbn; congruence].
  - left. rewrite lookup_update_samples, Hi.
    cbn [fmap option_fmap option_map]. now rewrite Hr.
Qed.

(** Through the calls of a pass: every sample either has no roster entry
    or stands at a place other than [i]. *)
Lemma update_loop_row_fate (people : list ConfigPerson.t) (call : nat -> World)
      (i : nat) (r : Sample) (samples : list Sample) :
  forall (k : nat) (db : DB),
    db !! i = Some r ->
    Forall (fun s => find_dob people (Name s) = ""
                     \/ exists j x, j <> i /\ db !! j = Some x
                                    /\ Barcode x = Barcode s) samples ->
    (exited (update_loop people call k db samples) = false ->
     store (update_loop people call k db samples) !! i = Some r)
    /\ (exited (update_loop people call k db samples) = true ->
        store (update_loop people call k db samples) !! i = Some r
        \/ rewritten_beside i r (store (update_loop people call k db samples))).
Proof.
  induction samples as [|smpl rest IH]; intros k db Hi Hs.
  - cbn. split; [intros _; exact Hi | discriminate].
  - destruct (updateOne people (call k) db smpl) as [db' o] eqn:E.
    rewrite (update_loop_cons _ _ _ _ _ _ _ _ E).
    inversion Hs as [|? ? Hsmpl Hrest]; subst.
    destruct (terminates o) eqn:Ht; cbn [store exited].
    + split; [discriminate|]. intros _.
      destruct Hsmpl as [Hn|[j [x [Hji [Hj Hb]]]]].
      * rewrite (updateOne_soft people (call k) db smpl NoMatch
                   (soft_no_match _ _ _ Hn)) in E.
        injection E as _ <-. discriminate.
      * eapply updateOne_row_fate; eassumption.
    + apply IH.
      * destruct Hsmpl as [Hn|[j [x [Hji [Hj Hb]]]]].
        -- rewrite (updateOne_soft people (call k) db smpl NoMatch
                      (soft_no_match _ _ _ Hn)) in E.
           now injection E as <- _.
        -- eapply updateOne_keeps_row; eassumption.
      * eapply Forall_impl; [exact Hrest|].
        intros s [Hn|[j' [x' [Hji' [Hj' Hb']]]]]; [now left|right].
        destruct (updateOne_keeps_barcodes _ _ _ _ _ _ _ _ E Hj')
          as [x'' [Hx'' Hb'']].
        exists j', x''. repeat split; [assumption..|congruence].
Qed.

(** A row that the query does not select, or whose name has no roster
    entry, through a pass. *)
Lemma run_pass_row_fate (people : list ConfigPerson.t) (env : PassEnv)
      (db : DB) (i : nat) (r : Sample) :
  db !! i = Some r ->
  results_like_pending r = false \/ find_dob people (Name r) = "" ->
  row_fate i r (run_pass people env (Running db)).
Proof.
  intros Hi Hr. cbn [run_pass]. unfold updatePending.
  destruct (QueryFails env); [exact Hi|].
  destruct (update_loop_row_fate people (Call env) i r (select_pending db)
              0%nat db Hi) as [Hrun Hexit].
  { apply Forall_forall. intros s Hs.
    apply elem_of_select_pending in Hs as [Hlike Hin].
    apply list_elem_of_lookup_1 in Hin as [j Hj].
    destruct (decide (j = i)) as [->|Hji]; [|right; now exists j, s].
    rewrite Hi in Hj. injection Hj as <-.
    destruct Hr as [Hr|Hr]; [congruence | now left]. }
  destruct (exited (update_loop people (Call env) 0 db (select_pending db)));
    cbn [row_fate]; [now apply Hexit | now apply Hrun].
Qed.

Lemma events_row_fate (people : list ConfigPerson.t) (i : nat) (r : Sample)
      (evs : list Event) :
  results_like_pending r = false \/ find_dob people (Name r) = "" ->
  forall p, row_fate i r p -> row_fate i r (fold_left (on_event people) evs p).
Proof.
  intros Hr. induction evs as [|ev evs IH]; intros p Hp; [assumption|].
  cbn [fold_left]. apply IH.
  destruct p as [db|db]; [|now destruct ev].
  destruct ev as [env|name barcode t]; cbn [on_event].
  - exact (run_pass_row_fate people env db i r Hp Hr).
  - cbn [handleNewSample]. destruct (is_empty name || is_empty barcode); [exact Hp|].
    cbn [row_fate] in *. unfold AddSample.
    rewrite lookup_app_l; [assumption|]. now apply lookup_lt_Some in Hp.
Qed.

Lemma not_like_pending (r : Sample) :
  (forall v, Results r = Some v -> ~ contains_pending v) ->
  results_like_pending r = false.
Proof.
  intros H. destruct (results_like_pending r) eqn:E; [|reflexivity].
  apply results_like_pending_iff in E as [s [Hs Hc]]. destruct (H s Hs Hc).
Qed.

(** C5, as the code has it.  A row whose results do not contain "pending"
    (as a substring, in any ASCII letter case) is at no later time among
    the samples of a pass, whatever passes and registrations follow, and
    it is written again by nothing but a commit made for another row that
    carries its barcode.  That commit ends the process: for as long as the
    process runs the row is as it was, and when the process has ended the
    row is as it was or holds, beside that other row, what the last commit
    has written. *)
Theorem resolved_row_left_alone (people : list ConfigPerson.t) (first : PassEnv)
        (evs : list Event) (db : DB) (i : nat) (r : Sample) :
  db !! i = Some r ->
  (forall v, Results r = Some v -> ~ contains_pending v) ->
  match periodicallyUpdate people first evs db with
  | Running db' => db' !! i = Some r /\ forall env, r ∉ samples_of env db'
  | Exited db' => db' !! i = Some r \/ rewritten_beside i r db'
  end.
Proof.
  intros Hi Hv. apply not_like_pending in Hv.
  pose proof (events_row_fate people i r evs (or_introl Hv)
                (run_pass people first (Running db))
                (run_pass_row_fate people first db i r Hi (or_introl Hv))) as H.
  unfold periodicallyUpdate.
  destruct (fold_left (on_event people) evs (run_pass people first (Running db)))
    as [db'|db']; [|exact H].
  split; [exact H|]. intros env Hin.
  unfold samples_of in Hin. destruct (QueryFails env); [inversion Hin|].
  apply elem_of_select_pending in Hin as [Hl _]. congruence.
Qed.

Lemma resolved_row_left_alone_witness :
  resolved_table !! 0%nat
  = Some {| Name := "Ann"; Barcode := "B1"; Results := Some "Negative final";
            CreatedTime := Some 100; UpdatedTime := Some 300;
            SampleDate := Some "final" |} /\
  (forall v, Some "Negative final" = Some v -> ~ contains_pending v) /\
  match periodicallyUpdate roster third_pass [Tick third_pass] resolved_table with
  | Running db' =>
      db' !! 0%nat
      = Some {| Name := "Ann"; Barcode := "B1"; Results := Some "Negative final";
                CreatedTime := Some 100; UpdatedTime := Some 300;
                SampleDate := Some "final" |}
      /\ forall env,
          {| Name := "Ann"; Barcode := "B1"; Results := Some "Negative final";
             CreatedTime := Some 100; UpdatedTime := Some 300;
             SampleDate := Some "final" |} ∉ samples_of env db'
  | Exited db' =>
      db' !! 0%nat
      = Some {| Name := "Ann"; Barcode := "B1"; Results := Some "Negative final";
                CreatedTime := Some 100; UpdatedTime := Some 300;
                SampleDate := Some "final" |}
      \/ rewritten_beside
           0 {| Name := "Ann"; Barcode := "B1"; Results := Some "Negative final";
                CreatedTime := Some 100; UpdatedTime := Some 300;
                SampleDate := Some "final" |} db'
  end.
Proof.
  assert (Hv : forall v, Some "Negative final" = Some v -> ~ contains_pending v).
  { intros v [= <-] H.
    assert (E : results_like_pending
                  {| Name := "Ann"; Barcode := "B1";
                     Results := Some "Negative final";
                     CreatedTime := Some 100; UpdatedTime := Some 300;
                     SampleDate := Some "final" |} = true).
    { apply results_like_pending_iff. now exists "Negative final". }
    vm_compute in E. discriminate. }
  split; [reflexivity|]. split; [exact Hv|].
  exact (resolved_row_left_alone roster third_pass [Tick third_pass]
           resolved_table 0 _ eq_refl Hv).
Defined.

(** The run in which the barcode of the resolved sample is registered
    again: the process ends with the resolved row rewritten beside the new
    one. *)
Example resolved_row_rewritten_at_exit :
  periodicallyUpdate roster first_pass (registered_again ++ [Tick third_pass])
                     one_pending
  = Exited [ set_result "Positive final" 500 "final"
               {| Name := "Ann"; Barcode := "B1";
                  Results := Some "Negative final";
                  CreatedTime := Some 100; UpdatedTime := Some 300;
                  SampleDate := Some "final" |};
             set_result "Positive final" 500 "final" (pending_row "Ann" "B1" 400) ].
Proof. reflexivity. Qed.

(** C5, as stated, fails twice.  When the portal reports "Result pending"
    the first pass commits a value that is not the sentinel, and the second
    pass selects the row again and commits it again.  And when the barcode
    of a resolved sample is registered again, the pass that handles the new
    sample rewrites the resolved row as well, before the process ends. *)
Lemma resolved_row_written_again :
  (periodicallyUpdate roster first_pass [] one_pending
   = Running (store (updatePending roster first_pass one_pending)) /\
   outcomes (updatePending roster first_pass one_pending) = [Updated] /\
   outcomes (updatePending roster second_pass
                           (store (updatePending roster first_pass one_pending)))
   = [Updated] /\
   ~ resolved_for_good roster second_pass
       (store (updatePending roster first_pass one_pending))) /\
  (periodicallyUpdate roster first_pass registered_again one_pending
   = Running (AddSample "Ann" "B1" 400 resolved_table) /\
   updatePending roster third_pass (AddSample "Ann" "B1" 400 resolved_table)
   = mkPass [ {| Name := "Ann"; Barcode := "B1"; Results := Some "Positive final";
                 CreatedTime := Some 100; UpdatedTime := Some 500;
                 SampleDate := Some "final" |};
              {| Name := "Ann"; Barcode := "B1"; Results := Some "Positive final";
                 CreatedTime := Some 400; UpdatedTime := Some 500;
                 SampleDate := Some "final" |} ]
            [Fatal 2] true /\
   ~ resolved_for_good roster third_pass (AddSample "Ann" "B1" 400 resolved_table)).
Proof.
  split.
  - split; [reflexivity|]. split; [reflexivity|]. split; [reflexivity|].
    intros H.
    destruct (H 0%nat _ "Result pending" eq_refl eq_refl) as [Hsel _];
      [discriminate|].
    apply Hsel. vm_compute. left.
  - split; [reflexivity|]. split; [reflexivity|].
    intros H.
    destruct (H 0%nat _ "Negative final" eq_refl eq_refl) as [_ Hrow];
      [discriminate|].
    vm_compute in Hrow. discriminate.
Qed.

(** ** An UPDATE of several rows *)

(** C9. When the [UPDATE] matches more than one row, every row with the
    barcode has its results, updated_time and sample_date set and the other
    columns kept; [updateOne] then ends by [log.Fatalf], and the table the
    process ends with is the updated one: nothing is undone. *)
Theorem multi_row_update_kept (people : list ConfigPerson.t) (w : World) (db : DB)
        (smpl : Sample) (results sample_date : string) :
  reaches_update people w smpl results sample_date ->
  ExecFails w = false ->
  1 < len (List.filter (has_barcode (Barcode smpl)) db) ->
  let db' := fst (update_samples db results (Now w) sample_date (Barcode smpl)) in
  updateOne people w db smpl
  = (db', Fatal (len (List.filter (has_barcode (Barcode smpl)) db))) /\
  (forall i r, db !! i = Some r -> Barcode r = Barcode smpl ->
               db' !! i = Some {| Name := Name r; Barcode := Barcode r;
                                  Results := Some results;
                                  CreatedTime := CreatedTime r;
                                  UpdatedTime := Some (Now w);
                                  SampleDate := Some sample_date |}) /\
  (forall i r, db !! i = Some r -> Barcode r <> Barcode smpl -> db' !! i = Some r) /\
  (forall env rest, QueryFails env = false -> Call env 0%nat = w ->
                    select_pending db = smpl :: rest ->
                    run_pass people env (Running db) = Exited db').
Proof.
  intros Hreach Hexec Hnum db'.
  pose proof (updateOne_commit people w db smpl results sample_date Hreach Hexec) as H.
  fold db' in H.
  destruct (Z.eqb_spec (len (List.filter (has_barcode (Barcode smpl)) db)) 1) as [E|_];
    [lia|].
  split; [exact H|]. split; [|split].
  - intros i r Hi Hb. unfold db'. rewrite lookup_update_samples, Hi.
    cbn [fmap option_fmap option_map]. unfold has_barcode.
    now rewrite (proj2 (String.eqb_eq _ _) Hb).
  - intros i r Hi Hb. unfold db'. rewrite lookup_update_samples, Hi.
    cbn [fmap option_fmap option_map]. unfold has_barcode.
    now rewrite (proj2 (String.eqb_neq _ _) Hb).
  - intros env rest Hq Hw Hsel. cbn [run_pass]. unfold updatePending.
    rewrite Hq, Hsel. cbn [update_loop]. rewrite Hw, H. reflexivity.
Qed.

Lemma multi_row_update_kept_witness :
  reaches_update roster (Call third_pass 0%nat)
                 {| Name := "Ann"; Barcode := "B1"; Results := Some "pending";
                    CreatedTime := Some 400; UpdatedTime := Some 400;
                    SampleDate := None |}
                 "Positive final" "final" /\
  ExecFails (Call third_pass 0%nat) = false /\
  1 < len (List.filter (has_barcode "B1") (AddSample "Ann" "B1" 400 resolved_table)) /\
  updateOne roster (Call third_pass 0%nat) (AddSample "Ann" "B1" 400 resolved_table)
            {| Name := "Ann"; Barcode := "B1"; Results := Some "pending";
               CreatedTime := Some 400; UpdatedTime := Some 400;
               SampleDate := None |}
  = (fst (update_samples (AddSample "Ann" "B1" 400 resolved_table)
                         "Positive final" 500 "final" "B1"),
     Fatal 2).
Proof.
  assert (Hr : reaches_update roster (Call third_pass 0%nat)
                 {| Name := "Ann"; Barcode := "B1"; Results := Some "pending";
                    CreatedTime := Some 400; UpdatedTime := Some 400;
                    SampleDate := None |}
                 "Positive final" "final").
  { split; [discriminate|]. eexists _, _. repeat split; reflexivity. }
  split; [exact Hr|]. split; [reflexivity|]. split; [reflexivity|].
  exact (proj1 (multi_row_update_kept roster (Call third_pass 0%nat)
                  (AddSample "Ann" "B1" 400 resolved_table) _
                  "Positive final" "final" Hr eq_refl eq_refl)).
Defined.

(** * Further properties of the code *)

(** ** The roster scan of updateOne *)

Lemma find_dob_skips (pre rest : list ConfigPerson.t) (name : string) :
  Forall (fun q => ConfigPerson.Name q <> name) pre ->
  find_dob (pre ++ rest) name = find_dob rest name.
Proof.
  induction 1 as [|q pre Hq _ IH]; [reflexivity|].
  simpl. now rewrite (proj2 (String.eqb_neq _ _) Hq).
Qed.

Lemma find_dob_found (people : list ConfigPerson.t) (name : string) :
  find_dob people name <> "" ->
  exists p, p ∈ people /\ ConfigPerson.Name p = name
            /\ ConfigPerson.DateOfBirth p = find_dob people name.
Proof.
  induction people as [|q people IH]; simpl; [congruence|].
  destruct (String.eqb_spec (ConfigPerson.Name q) name) as [E|E].
  - intros _. exists q. repeat split; [left | assumption].
  - intros H. destruct (IH H) as [p [Hin [Hn Hd]]].
    exists p. repeat split; [now right | assumption..].
Qed.

(** X1. The roster scan takes the date of birth of the first person of
    that name, whatever follows; it yields a non-empty date only from a
    person of that name, and the empty string when nobody has the name. *)
Theorem roster_first_match :
  (forall pre p post,
      Forall (fun q => ConfigPerson.Name q <> ConfigPerson.Name p) pre ->
      find_dob (pre ++ p :: post) (ConfigPerson.Name p) = ConfigPerson.DateOfBirth p) /\
  (forall people name,
      find_dob people name <> "" ->
      exists p, p ∈ people /\ ConfigPerson.Name p = name
                /\ ConfigPerson.DateOfBirth p = find_dob people name) /\
  (forall people name,
      Forall (fun q => ConfigPerson.Name q <> name) people ->
      find_dob people name = "").
Proof.
  split; [|split; [exact find_dob_found|]].
  - intros pre p post Hpre. rewrite (find_dob_skips pre _ _ Hpre).
    simpl. now rewrite String.eqb_refl.
  - intros people name H.
    rewrite <- (app_nil_r people). now rewrite (find_dob_skips people [] name H).
Qed.

(** A person entered with an empty date of birth hides the later entries
    of that name, and the sample is passed over. *)
Example empty_dob_hides_later_entry :
  updateOne [ConfigPerson.mk "Ann" ""; ConfigPerson.mk "Ann" "01/02/1990"]
            (Call first_pass 0%nat) one_pending (pending_row "Ann" "B1" 100)
  = (one_pending, NoMatch).
Proof. reflexivity. Qed.

(** ** updateOne stays in bounds *)

Lemma parse_returns (cells : list string) : exists c, parse cells = Ret c.
Proof.
  destruct (count_cases (len cells) (len_nonneg cells)) as [H0|[Hu|Hr]].
  - rewrite (parse_empty cells H0). eauto.
  - rewrite (parse_unrecognized cells Hu). eauto.
  - rewrite (parse_resolved cells Hr). eauto.
Qed.

Lemma updateOne_outcome (people : list ConfigPerson.t) (w : World) (db : DB)
      (smpl : Sample) :
  match snd (updateOne people w db smpl) with
  | Crashed | Unfinished => False
  | Fatal num => num <> 1
  | _ => True
  end.
Proof.
  unfold updateOne.
  destruct (is_empty _); [exact I|].
  destruct (PostForm _ _ _) as [msg|h]; [exact I|].
  destruct (getAllTDs h) as [cells|e]; [|exact I].
  destruct (parse_returns cells) as [c ->].
  destruct c as [| |results sample_date]; [exact I..|].
  destruct (ExecFails w); [exact I|].
  cbn [update_samples].
  destruct (Z.eqb_spec (len (List.filter (has_barcode (Barcode smpl)) db)) 1);
    simpl; [exact I | assumption].
Qed.

Lemma update_loop_outcomes (people : list ConfigPerson.t) (call : nat -> World)
      (samples : list Sample) :
  forall (k : nat) (db : DB),
    let p := update_loop people call k db samples in
    Forall (fun o => o <> Crashed /\ o <> Unfinished) (outcomes p)
    /\ (length (outcomes p) <= length samples)%nat
    /\ (exited p = true
        <-> exists num, num <> 1 /\ last (outcomes p) = Some (Fatal num)).
Proof.
  induction samples as [|smpl rest IH]; intros k db; cbn zeta.
  - simpl. repeat split; [constructor | lia | discriminate |].
    intros [num [_ H]]. discriminate.
  - pose proof (updateOne_outcome people (call k) db smpl) as Ho.
    destruct (updateOne people (call k) db smpl) as [db' o] eqn:E.
    rewrite (update_loop_cons _ _ _ _ _ _ _ _ E). cbn [snd] in Ho.
    destruct (IH (S k) db') as [Hall [Hlen Hex]].
    destruct o; try (exfalso; exact Ho);
      cbn [terminates outcomes exited length].
    1-7: split; [constructor; [split; discriminate | exact Hall]|];
         (split; [lia|]);
         rewrite Hex;
         destruct (outcomes (update_loop people call (S k) db' rest)) as [|o' os];
         [ split; intros [n [_ H]]; discriminate | reflexivity ].
    split; [repeat constructor; discriminate|]. split; [simpl; lia|].
    split; [intros _; now exists num | reflexivity].
Qed.

(** X2. Whatever the portal answers, a call of [updateOne] never indexes
    the cells out of range, and a pass ends the process in one way only:
    by the row-count check of its last call, on a count other than one.  A
    pass makes at most one call per sample. *)
Theorem pass_ends_only_by_row_check (people : list ConfigPerson.t)
        (env : PassEnv) (db : DB) :
  (forall w smpl, snd (updateOne people w db smpl) <> Crashed
                  /\ snd (updateOne people w db smpl) <> Unfinished) /\
  Forall (fun o => o <> Crashed /\ o <> Unfinished)
         (outcomes (updatePending people env db)) /\
  (length (outcomes (updatePending people env db))
   <= length (samples_of env db))%nat /\
  (exited (updatePending people env db) = true
   <-> exists num, num <> 1
                   /\ last (outcomes (updatePending people env db)) = Some (Fatal num)).
Proof.
  split.
  - intros w smpl. pose proof (updateOne_outcome people w db smpl) as H.
    destruct (snd (updateOne people w db smpl)); try (exfalso; exact H);
      split; discriminate.
  - unfold updatePending, samples_of. destruct (QueryFails env).
    + simpl. repeat split; [constructor | lia | discriminate |].
      intros [num [_ H]]. discriminate.
    + exact (update_loop_outcomes people (Call env) (select_pending db) 0%nat db).
Qed.

(** ** Names the roster does not know *)

Lemma update_loop_no_match (people : list ConfigPerson.t) (call : nat -> World)
      (db : DB) (samples : list Sample) :
  Forall (fun s => find_dob people (Name s) = "") samples ->
  forall k, update_loop people call k db samples
            = mkPass db (map (fun _ => NoMatch) samples) false.
Proof.
  induction 1 as [|smpl rest Hs _ IH]; intros k; [reflexivity|].
  cbn [update_loop].
  rewrite (updateOne_soft people (call k) db smpl NoMatch (soft_no_match _ _ _ Hs)).
  cbn [terminates]. now rewrite IH.
Qed.

(** X3. When none of the samples of a pass has a roster entry (with an
    empty roster, for one) the pass changes nothing: every call ends with
    "Couldn't find match", the table is as before and the process goes
    on. *)
Theorem unmatched_names_noop (people : list ConfigPerson.t) (env : PassEnv)
        (db : DB) :
  (forall s, s ∈ samples_of env db -> find_dob people (Name s) = "") ->
  updatePending people env db
  = mkPass db (map (fun _ => NoMatch) (samples_of env db)) false.
Proof.
  intros H. unfold updatePending, samples_of in *.
  destruct (QueryFails env); [reflexivity|].
  apply update_loop_no_match. apply Forall_forall. exact H.
Qed.

Lemma unmatched_names_noop_witness :
  (forall s, s ∈ samples_of first_pass one_pending -> find_dob [] (Name s) = "") /\
  updatePending [] first_pass one_pending = mkPass one_pending [NoMatch] false.
Proof.
  assert (H : forall s, s ∈ samples_of first_pass one_pending ->
                        find_dob [] (Name s) = "") by reflexivity.
  split; [exact H|].
  exact (unmatched_names_noop [] first_pass one_pending H).
Defined.

(** ** Registering a sample *)

Lemma pending_row_selected (name barcode : string) (t : Time) :
  results_like_pending (pending_row name barcode t) = true.
Proof. reflexivity. Qed.

(** X4. [AddSample] appends one row, pending, with both timestamps equal
    and no sample date, and leaves every row where it was; the query of
    the next pass selects the new sample, after the ones it selected
    before. *)
Theorem registered_sample_selected (name barcode : string) (t : Time) (db : DB) :
  AddSample name barcode t db = db ++ [pending_row name barcode t] /\
  (forall i r, db !! i = Some r -> AddSample name barcode t db !! i = Some r) /\
  AddSample name barcode t db !! length db = Some (pending_row name barcode t) /\
  select_pending (AddSample name barcode t db)
  = select_pending db ++ [pending_row name barcode t].
Proof.
  split; [reflexivity|]. unfold AddSample. fold (pending_row name barcode t).
  split; [|split].
  - intros i r Hi. rewrite lookup_app_l; [assumption|]. now apply lookup_lt_Some in Hi.
  - rewrite lookup_app_r by lia. now rewrite Nat.sub_diag.
  - unfold select_pending. rewrite List.filter_app. cbn [List.filter].
    now rewrite pending_row_selected.
Qed.

(** ** handleNewSample *)

(** X5. [handleNewSample] changes the table only when it answers with the
    redirect, which it does exactly on a POST whose form parses and has a
    non-empty person and a non-empty barcode, the store accepting the
    insert; the table is then the old one with the one pending row added.
    Every other request leaves the table as it is. *)
Theorem new_sample_request (r : Handlers.Request) (now : Time)
        (insert_fails : bool) (db : DB) :
  (snd (Handlers.handleNewSample r now insert_fails db) = Handlers.SeeOther
   <-> Handlers.Method r = "POST"
       /\ insert_fails = false
       /\ exists form, Handlers.Form r = Some form
                       /\ Handlers.Get form "person" <> ""
                       /\ Handlers.Get form "barcode" <> "") /\
  (forall form,
      snd (Handlers.handleNewSample r now insert_fails db) = Handlers.SeeOther ->
      Handlers.Form r = Some form ->
      fst (Handlers.handleNewSample r now insert_fails db)
      = db ++ [pending_row (Handlers.Get form "person")
                           (Handlers.Get form "barcode") now]) /\
  (snd (Handlers.handleNewSample r now insert_fails db) <> Handlers.SeeOther ->
   fst (Handlers.handleNewSample r now insert_fails db) = db).
Proof.
  unfold Handlers.handleNewSample.
  destruct (String.eqb_spec (Handlers.Method r) "POST") as [Hm|Hm]; cbn [negb].
  2:{ simpl. repeat split; try discriminate; try tauto. }
  destruct (Handlers.Form r) as [form|].
  2:{ simpl. repeat split; try discriminate.
      intros [_ [_ [form [H _]]]]. discriminate. }
  destruct (is_empty (Handlers.Get form "person")) eqn:En; cbn [orb].
  { apply is_empty_iff in En. simpl. repeat split; try discriminate.
    intros [_ [_ [form' [[= <-] [H _]]]]]. contradiction. }
  destruct (is_empty (Handlers.Get form "barcode")) eqn:Eb.
  { apply is_empty_iff in Eb. simpl. repeat split; try discriminate.
    intros [_ [_ [form' [[= <-] [_ H]]]]]. contradiction. }
  apply is_empty_false_iff in En, Eb.
  destruct insert_fails; simpl.
  - repeat split; try discriminate. intros [_ [H _]]. discriminate.
  - repeat split; try reflexivity; try assumption.
    + exists form. now repeat split.
    + intros form' _ [= <-]. reflexivity.
    + intros H. now destruct H.
Qed.

(** ** What a pass keeps *)

Lemma same_identity_refl (db : DB) : Forall2 same_identity db db.
Proof. induction db; constructor; [now repeat split | assumption]. Qed.

Lemma same_identity_trans (a b c : DB) :
  Forall2 same_identity a b -> Forall2 same_identity b c ->
  Forall2 same_identity a c.
Proof.
  intros Hab. revert c. induction Hab as [|x y a b [H1 [H2 H3]] _ IH]; intros c Hbc.
  - inversion Hbc. constructor.
  - inversion Hbc as [|? z ? c' [H4 [H5 H6]] Hbc']; subst.
    constructor; [repeat split; congruence | now apply IH].
Qed.

Lemma update_samples_same_identity (db : DB) (results : string) (t : Time)
      (sample_date barcode : string) :
  Forall2 same_identity db (fst (update_samples db results t sample_date barcode)).
Proof.
  cbn [update_samples fst]. induction db as [|r db IH]; constructor; [|exact IH].
  destruct (has_barcode barcode r); now repeat split.
Qed.

Lemma updateOne_same_identity (people : list ConfigPerson.t) (w : World)
      (db db' : DB) (smpl : Sample) (o : Outcome) :
  updateOne people w db smpl = (db', o) -> Forall2 same_identity db db'.
Proof.
  intros H. apply updateOne_inv in H as [->|[results [sample_date [-> _]]]].
  - apply same_identity_refl.
  - apply update_samples_same_identity.
Qed.

Lemma update_loop_same_identity (people : list ConfigPerson.t)
      (call : nat -> World) (samples : list Sample) :
  forall (k : nat) (db : DB),
    Forall2 same_identity db (store (update_loop people call k db samples)).
Proof.
  induction samples as [|smpl rest IH]; intros k db; [apply same_identity_refl|].
  destruct (updateOne people (call k) db smpl) as [db' o] eqn:E.
  rewrite (update_loop_cons _ _ _ _ _ _ _ _ E).
  pose proof (updateOne_same_identity _ _ _ _ _ _ E) as H.
  destruct (terminates o); cbn [store]; [exact H|].
  eapply same_identity_trans; [exact H | apply IH].
Qed.

Lemma updatePending_same_identity (people : list ConfigPerson.t) (env : PassEnv)
      (db : DB) :
  Forall2 same_identity db (store (updatePending people env db)).
Proof.
  unfold updatePending. destruct (QueryFails env); [apply same_identity_refl|].
  apply update_loop_same_identity.
Qed.

Lemma on_event_same_identity (people : list ConfigPerson.t) (p : Process)
      (ev : Event) :
  exists added, Forall2 same_identity (store_of p ++ added)
                        (store_of (on_event people p ev)).
Proof.
  destruct p as [db|db]; [|exists []; destruct ev; simpl; rewrite app_nil_r;
                           apply same_identity_refl].
  destruct ev as [env|name barcode t]; cbn [on_event].
  - exists []. rewrite app_nil_r. cbn [run_pass store_of].
    pose proof (updatePending_same_identity people env db) as H.
    now destruct (exited (updatePending people env db)).
  - cbn [handleNewSample]. destruct (is_empty name || is_empty barcode).
    + exists []. rewrite app_nil_r. apply same_identity_refl.
    + eexists. apply same_identity_refl.
Qed.

Lemma events_same_identity (people : list ConfigPerson.t) (evs : list Event) :
  forall p, exists added,
      Forall2 same_identity (store_of p ++ added)
              (store_of (fold_left (on_event people) evs p)).
Proof.
  induction evs as [|ev evs IH]; intros p.
  - exists []. rewrite app_nil_r. apply same_identity_refl.
  - cbn [fold_left].
    destruct (on_event_same_identity people p ev) as [a1 H1].
    destruct (IH (on_event people p ev)) as [a2 H2].
    exists (a1 ++ a2). rewrite app_assoc.
    eapply same_identity_trans; [|exact H2].
    apply Forall2_app; [exact H1 | apply same_identity_refl].
Qed.

(** X6. The polling code never adds or removes a row and never writes the
    name, the barcode or the creation time of one: a pass leaves the table
    at its length with these columns as they were, and over any run of
    passes and registrations the rows of the table keep their places and
    these columns, new rows coming at the end. *)
Theorem identity_columns_kept (people : list ConfigPerson.t) (first : PassEnv)
        (evs : list Event) (db : DB) :
  Forall2 same_identity db (store (updatePending people first db)) /\
  exists added,
    Forall2 same_identity (db ++ added)
            (store_of (periodicallyUpdate people first evs db)).
Proof.
  split; [apply updatePending_same_identity|].
  unfold periodicallyUpdate.
  destruct (events_same_identity people evs (run_pass people first (Running db)))
    as [added H].
  exists added. eapply same_identity_trans; [|exact H].
  apply Forall2_app; [|apply same_identity_refl].
  cbn [run_pass]. pose proof (updatePending_same_identity people first db) as H0.
  now destruct (exited (updatePending people first db)).
Qed.

(** ** Rows a pass has no business with *)

Lemma updateOne_other_barcode (people : list ConfigPerson.t) (w : World)
      (db db' : DB) (smpl : Sample) (o : Outcome) (i : nat) (r : Sample) :
  updateOne people w db smpl = (db', o) ->
  db !! i = Some r -> Barcode smpl <> Barcode r ->
  db' !! i = Some r.
Proof.
  intros H Hi Hb. apply updateOne_inv in H as [->|[results [sample_date [-> _]]]];
    [assumption|].
  rewrite lookup_update_samples, Hi. cbn [fmap option_fmap option_map].
  unfold has_barcode. rewrite (proj2 (String.eqb_neq _ _)); [reflexivity | congruence].
Qed.

Lemma update_loop_other_barcodes (people : list ConfigPerson.t)
      (call : nat -> World) (i : nat) (r : Sample) (samples : list Sample) :
  Forall (fun s => Barcode s <> Barcode r) samples ->
  forall (k : nat) (db : DB),
    db !! i = Some r ->
    store (update_loop people call k db samples) !! i = Some r.
Proof.
  induction 1 as [|smpl rest Hs _ IH]; intros k db Hi; [assumption|].
  destruct (updateOne people (call k) db smpl) as [db' o] eqn:E.
  rewrite (update_loop_cons _ _ _ _ _ _ _ _ E).
  pose proof (updateOne_other_barcode _ _ _ _ _ _ _ _ E Hi Hs) as Hi'.
  destruct (terminates o); cbn [store]; [exact Hi'|]. now apply IH.
Qed.

(** X7. A pass writes only rows that carry the barcode of one of its
    samples: a row whose barcode none of them has is the same after the
    pass, also when the pass ends the process. *)
Theorem pass_frame (people : list ConfigPerson.t) (env : PassEnv) (db : DB)
        (i : nat) (r : Sample) :
  db !! i = Some r ->
  (forall s, s ∈ samples_of env db -> Barcode s <> Barcode r) ->
  store (updatePending people env db) !! i = Some r.
Proof.
  intros Hi Hs. unfold updatePending, samples_of in *.
  destruct (QueryFails env); [assumption|].
  apply update_loop_other_barcodes; [|assumption].
  apply Forall_forall. exact Hs.
Qed.

Lemma pass_frame_witness :
  (AddSample "Bob" "B2" 400 resolved_table) !! 0%nat
  = Some {| Name := "Ann"; Barcode := "B1"; Results := Some "Negative final";
            CreatedTime := Some 100; UpdatedTime := Some 300;
            SampleDate := Some "final" |} /\
  store (updatePending (ConfigPerson.mk "Bob" "03/04/1985" :: roster) third_pass
                       (AddSample "Bob" "B2" 400 resolved_table)) !! 0%nat
  = Some {| Name := "Ann"; Barcode := "B1"; Results := Some "Negative final";
            CreatedTime := Some 100; UpdatedTime := Some 300;
            SampleDate := Some "final" |}.
Proof.
  split; [reflexivity|].
  apply (pass_frame (ConfigPerson.mk "Bob" "03/04/1985" :: roster) third_pass
           (AddSample "Bob" "B2" 400 resolved_table) 0); [reflexivity|].
  intros s Hs. vm_compute in Hs.
  apply list_elem_of_In in Hs. destruct Hs as [<-|[]]. discriminate.
Defined.

(** ** A commit that returns *)

Lemma updateOne_updated (people : list ConfigPerson.t) (w : World)
      (db db' : DB) (smpl : Sample) :
  updateOne people w db smpl = (db', Updated) ->
  exists results sample_date,
    reaches_update people w smpl results sample_date
    /\ ExecFails w = false
    /\ db' = fst (update_samples db results (Now w) sample_date (Barcode smpl))
    /\ len (List.filter (has_barcode (Barcode smpl)) db) = 1.
Proof.
  unfold updateOne, reaches_update.
  destruct (is_empty _) eqn:Ed; [discriminate|]. apply is_empty_false_iff in Ed.
  destruct (PostForm _ _ _) as [msg|h] eqn:Ep; [discriminate|].
  destruct (getAllTDs h) as [cells|e] eqn:Ec; [|discriminate].
  destruct (parse cells) as [[| |results sample_date]| |] eqn:Ea; try discriminate.
  destruct (ExecFails w); [discriminate|].
  cbn [update_samples].
  destruct (Z.eqb_spec (len (List.filter (has_barcode (Barcode smpl)) db)) 1) as [E|E];
    simpl; [|discriminate].
  intros [= <-]. exists results, sample_date.
  repeat split; try assumption. now exists h, cells.
Qed.

(** In a list with one element satisfying [P], mapping [f] over those that
    satisfy [P] rewrites one place. *)
Lemma map_single (P : Sample -> bool) (f : Sample -> Sample) (l : list Sample) :
  length (List.filter P l) = 1%nat ->
  exists i x, l !! i = Some x /\ P x = true
              /\ (forall j y, l !! j = Some y -> P y = true -> j = i)
              /\ map (fun r => if P r then f r else r) l = <[i := f x]> l.
Proof.
  induction l as [|r l IH]; [discriminate|].
  cbn [List.filter]. destruct (P r) eqn:Er; cbn [length].
  - intros [= Hl]. exists 0%nat, r. repeat split; [assumption| |].
    + intros [|j] y Hj Hy; [reflexivity|]. exfalso. simpl in Hj.
      assert (Hin : In y (List.filter P l)).
      { apply filter_In. split; [|assumption].
        apply list_elem_of_In. eapply list_elem_of_lookup_2. exact Hj. }
      destruct (List.filter P l); [destruct Hin | discriminate].
    + cbn [map]. rewrite Er. simpl. f_equal.
      assert (Hno : forall y, In y l -> P y = false).
      { intros y Hy. destruct (P y) eqn:Ey; [|reflexivity].
        assert (Hin : In y (List.filter P l)) by (apply filter_In; now split).
        destruct (List.filter P l); [destruct Hin | discriminate]. }
      clear -Hno. induction l as [|a l IHl]; [reflexivity|].
      cbn [map]. rewrite (Hno a (or_introl eq_refl)). f_equal.
      apply IHl. intros y Hy. apply Hno. now right.
  - intros Hl. destruct (IH Hl) as [i [x [Hi [Hx [Huniq Hmap]]]]].
    exists (S i), x. repeat split; [assumption..| |].
    + intros [|j] y Hj Hy; simpl in Hj.
      * injection Hj as ->. congruence.
      * f_equal. now apply (Huniq j y).
    + cbn [map]. rewrite Er. simpl. now f_equal.
Qed.

(** X8. A commit after which [updateOne] returns has rewritten one row and
    no other: the only row of the table with the sample's barcode now has
    the parsed text, the time of the commit and the sample date, and every
    other row is as it was. *)
Theorem commit_rewrites_one_row (people : list ConfigPerson.t) (w : World)
        (db db' : DB) (smpl : Sample) :
  updateOne people w db smpl = (db', Updated) ->
  exists i r results sample_date,
    reaches_update people w smpl results sample_date
    /\ db !! i = Some r
    /\ Barcode r = Barcode smpl
    /\ (forall j r', db !! j = Some r' -> Barcode r' = Barcode smpl -> j = i)
    /\ db' = <[i := {| Name := Name r; Barcode := Barcode r;
                       Results := Some results; CreatedTime := CreatedTime r;
                       UpdatedTime := Some (Now w);
                       SampleDate := Some sample_date |}]> db.
Proof.
  intros H. apply updateOne_updated in H
    as [results [sample_date [Hreach [_ [-> Hone]]]]].
  unfold len in Hone.
  destruct (map_single (has_barcode (Barcode smpl))
              (set_result results (Now w) sample_date) db)
    as [i [x [Hi [Hx [Huniq Hmap]]]]]; [lia|].
  exists i, x, results, sample_date.
  split; [exact Hreach|]. split; [exact Hi|].
  split; [now apply String.eqb_eq|]. split; [|exact Hmap].
  intros j r' Hj Hb. apply (Huniq j r' Hj). now apply String.eqb_eq.
Qed.

Lemma commit_rewrites_one_row_witness :
  updateOne roster (Call first_pass 0%nat) one_pending (pending_row "Ann" "B1" 100)
  = ([ {| Name := "Ann"; Barcode := "B1"; Results := Some "Result pending";
          CreatedTime := Some 100; UpdatedTime := Some 200;
          SampleDate := Some "pending" |} ], Updated) /\
  exists i r results sample_date,
    reaches_update roster (Call first_pass 0%nat) (pending_row "Ann" "B1" 100)
                   results sample_date
    /\ one_pending !! i = Some r
    /\ Barcode r = "B1"
    /\ (forall j r', one_pending !! j = Some r' -> Barcode r' = "B1" -> j = i)
    /\ [ {| Name := "Ann"; Barcode := "B1"; Results := Some "Result pending";
            CreatedTime := Some 100; UpdatedTime := Some 200;
            SampleDate := Some "pending" |} ]
       = <[i := {| Name := Name r; Barcode := Barcode r;
                   Results := Some results; CreatedTime := CreatedTime r;
                   UpdatedTime := Some 200;
                   SampleDate := Some sample_date |}]> one_pending.
Proof.
  split; [reflexivity|].
  exact (commit_rewrites_one_row roster (Call first_pass 0%nat) one_pending _
           (pending_row "Ann" "B1" 100) eq_refl).
Defined.

(** ** Cells and td start tags *)

Lemma count_td_snoc (toks : list Token) (tok : Token) :
  count_td (toks ++ [tok])
  = (count_td toks + if is_td_start tok then 1 else 0)%nat.
Proof.
  unfold count_td. rewrite List.filter_app, length_app. cbn [List.filter].
  now destruct (is_td_start tok).
Qed.

Lemma count_text_snoc (toks : list Token) (tok : Token) :
  count_text (toks ++ [tok])
  = (count_text toks
     + if TokenType_eqb (Type_ tok) TextToken then 1 else 0)%nat.
Proof.
  unfold count_text. rewrite List.filter_app, length_app. cbn [List.filter].
  now destruct (TokenType_eqb (Type_ tok) TextToken).
Qed.

Lemma cells_bounded (toks : list Token) :
  (length (data (grab_run toks))
   + (if grabNextText (grab_run toks) then 1 else 0) <= count_td toks)%nat
  /\ (length (data (grab_run toks)) <= count_text toks)%nat.
Proof.
  induction toks as [|tok toks [IH1 IH2]] using rev_ind; [simpl; lia|].
  rewrite grab_run_snoc, count_td_snoc, count_text_snoc.
  by_turn (grab_run toks) tok; cbn [data grabNextText].
  - cbn. destruct (grabNextText (grab_run toks)); lia.
  - rewrite text_is_no_td. lia.
  - rewrite text_is_no_td, length_app. rewrite Hg in IH1. simpl. lia.
  - destruct (is_td_start tok) eqn:E; [apply is_td_start_iff in E; contradiction|].
    lia.
Qed.

(** X9. [getAllTDs] yields at most one cell for every td start tag of the
    document, and at most one for every text token. *)
Theorem one_cell_per_td (toks : list Token) :
  (length (cells_of toks) <= count_td toks)%nat /\
  (length (cells_of toks) <= count_text toks)%nat.
Proof.
  destruct (cells_bounded toks) as [H1 H2]. unfold cells_of.
  split; [|exact H2]. destruct (grabNextText (grab_run toks)); lia.
Qed.

(** Two td start tags before one text give one cell. *)
Example nested_td_one_cell :
  cells_of [td_start; td_start; text_token "x"; text_token "y"] = ["x"].
Proof. reflexivity. Qed.

(** ** The cells the parser does not read *)

Lemma cell_agree (cells cells' : list string) (i : Z) :
  cells !! Z.to_nat i = cells' !! Z.to_nat i -> cell cells i = cell cells' i.
Proof.
  intros H. unfold cell. destruct (i <? 0); [reflexivity|].
  now rewrite !nth_lookup, H.
Qed.

Lemma row_indices_range (n i : Z) : i ∈ row_indices n -> 3 <= i < n - 3.
Proof.
  unfold row_indices. intros H. apply list_elem_of_filter in H as [Hlt Hin].
  apply list_elem_of_In, in_map_iff in Hin as [k [<- _]]. lia.
Qed.

(** X10. The first and the last cell of a table never reach the result:
    two cell sequences of one length that agree from the second cell to
    the second-to-last are parsed alike. *)
Theorem first_and_last_cell_unused (cells cells' : list string) :
  length cells = length cells' ->
  (forall i, (1 <= i)%nat -> (i + 2 <= length cells)%nat ->
             cells !! i = cells' !! i) ->
  parse cells = parse cells'.
Proof.
  intros Hlen Hag.
  assert (Hl : len cells' = len cells) by (unfold len; now rewrite Hlen).
  assert (Hc : forall i, 1 <= i <= len cells - 2 -> cell cells i = cell cells' i).
  { intros i Hi. apply cell_agree. apply Hag; unfold len in Hi; lia. }
  destruct (count_cases (len cells) (len_nonneg cells)) as [H0|[Hu|Hr]].
  - rewrite (parse_empty cells H0), (parse_empty cells'); [reflexivity | lia].
  - rewrite (parse_unrecognized cells Hu), (parse_unrecognized cells');
      [reflexivity | now rewrite Hl].
  - rewrite (parse_resolved cells Hr), (parse_resolved cells') by now rewrite Hl.
    rewrite Hl. f_equal. f_equal; [|apply Hc; lia].
    unfold rendered_text. rewrite Hl, !Hc by lia. f_equal. f_equal.
    apply map_ext_in. intros i Hi.
    apply list_elem_of_In, row_indices_range in Hi.
    unfold row_text. now rewrite !Hc by lia.
Qed.

Lemma first_and_last_cell_unused_witness :
  length ["x"; "H1"; "H2"; "R1"; "R2"; "DATE"; "last"]
  = length ["other"; "H1"; "H2"; "R1"; "R2"; "DATE"; "end"] /\
  parse ["x"; "H1"; "H2"; "R1"; "R2"; "DATE"; "last"]
  = parse ["other"; "H1"; "H2"; "R1"; "R2"; "DATE"; "end"].
Proof.
  split; [reflexivity|].
  apply first_and_last_cell_unused; [reflexivity|].
  intros [|[|[|[|[|[|i]]]]]] H1 H2; simpl in *; try reflexivity; lia.
Defined.

(** ** How commits compose *)

(** X11. A second [UPDATE] for a barcode overwrites the first in full; an
    [UPDATE] does not change how many rows any barcode matches; and two
    [UPDATE]s for different barcodes give the same table in either
    order. *)
Theorem updates_compose (db : DB) (r1 r2 : string) (t1 t2 : Time)
        (d1 d2 b b' : string) :
  fst (update_samples (fst (update_samples db r1 t1 d1 b)) r2 t2 d2 b)
  = fst (update_samples db r2 t2 d2 b) /\
  snd (update_samples (fst (update_samples db r1 t1 d1 b)) r2 t2 d2 b')
  = snd (update_samples db r2 t2 d2 b') /\
  (b <> b' ->
   fst (update_samples (fst (update_samples db r1 t1 d1 b)) r2 t2 d2 b')
   = fst (update_samples (fst (update_samples db r2 t2 d2 b')) r1 t1 d1 b)).
Proof.
  cbn [update_samples fst snd]. unfold len. split; [|split].
  - induction db as [|r db IH]; [reflexivity|]. cbn [map]. f_equal; [|exact IH].
    destruct (has_barcode b r) eqn:E; [|now rewrite E].
    unfold has_barcode in *. cbn [set_result Barcode]. now rewrite E.
  - f_equal.
    induction db as [|r db IH]; [reflexivity|]. cbn [map List.filter].
    assert (E : has_barcode b' (if has_barcode b r then set_result r1 t1 d1 r else r)
                = has_barcode b' r) by now destruct (has_barcode b r).
    rewrite E. destruct (has_barcode b' r); cbn [length]; [f_equal|]; exact IH.
  - intros Hb. induction db as [|r db IH]; [reflexivity|]. cbn [map].
    f_equal; [|exact IH].
    unfold has_barcode.
    destruct (String.eqb (Barcode r) b) eqn:E, (String.eqb (Barcode r) b') eqn:E';
      cbn [set_result Barcode]; rewrite ?E, ?E'; try reflexivity.
    apply String.eqb_eq in E, E'. congruence.
Qed.

(** ** GetSamples and the index page *)

Section ListingOrder.

Context (not_older : relation (option Time)) `{!RelDecision not_older}.
Context `{!Transitive not_older} `{!Total not_older}.

#[local] Existing Instance Handlers.newest_first_dec.

#[local] Instance newest_first_trans : Transitive (Handlers.newest_first not_older).
Proof. intros x y z. unfold Handlers.newest_first. apply transitivity. Qed.

#[local] Instance newest_first_total : Total (Handlers.newest_first not_older).
Proof. intros x y. unfold Handlers.newest_first. apply total. exact _. Qed.

(** The first [k] rows of the sorted table: so many rows, in order, none of
    them older than a row left out. *)
Lemma newest_rows (k : nat) (db : DB) :
  let rows := take k (merge_sort (Handlers.newest_first not_older) db) in
  let rest := drop k (merge_sort (Handlers.newest_first not_older) db) in
  length rows = Nat.min k (length db)
  /\ rows ++ rest ≡ₚ db
  /\ StronglySorted (Handlers.newest_first not_older) rows
  /\ forall x y, x ∈ rows -> y ∈ rest ->
                 not_older (UpdatedTime x) (UpdatedTime y).
Proof.
  cbn zeta.
  pose proof (merge_sort_Permutation (Handlers.newest_first not_older) db) as Hp.
  pose proof (StronglySorted_merge_sort (Handlers.newest_first not_older) db) as Hs.
  rewrite <- (take_drop k (merge_sort (Handlers.newest_first not_older) db)) in Hs.
  split; [|split; [|split]].
  - rewrite length_take. now rewrite (Permutation_length Hp).
  - now rewrite take_drop.
  - eapply StronglySorted_app_1_l. exact Hs.
  - intros x y Hx Hy.
    exact (StronglySorted_app_1_elem_of _ _ _ x y Hs Hx Hy).
Qed.

Lemma all_rows_sorted (db : DB) :
  StronglySorted (Handlers.newest_first not_older)
                 (merge_sort (Handlers.newest_first not_older) db).
Proof. apply StronglySorted_merge_sort; apply _. Qed.

End ListingOrder.

(** X12. However the store orders the column updated_time, as long as it
    is a total order up to ties, [GetSamples] with a limit that is not
    negative returns that many rows of the table, or all of them if there
    are fewer, sorted with the latest update first, and no row it leaves
    out was updated later than a row it returns.  A negative limit returns
    the whole table, sorted; a failed query returns no rows. *)
Theorem newest_rows_listed (not_older : relation (option Time))
        `{!RelDecision not_older} `{!Transitive not_older} `{!Total not_older}
        (limit : Z) (db : DB) :
  (0 <= limit ->
   exists rows rest,
     Handlers.GetSamples not_older false limit db = Some rows
     /\ length rows = Nat.min (Z.to_nat limit) (length db)
     /\ rows ++ rest ≡ₚ db
     /\ StronglySorted (Handlers.newest_first not_older) rows
     /\ forall x y, x ∈ rows -> y ∈ rest ->
                    not_older (UpdatedTime x) (UpdatedTime y)) /\
  (limit < 0 ->
   exists rows,
     Handlers.GetSamples not_older false limit db = Some rows
     /\ rows ≡ₚ db
     /\ StronglySorted (Handlers.newest_first not_older) rows) /\
  Handlers.GetSamples not_older true limit db = None.
Proof.
  split; [|split; [|reflexivity]].
  - intros Hl. unfold Handlers.GetSamples.
    destruct (Z.ltb_spec limit 0) as [?|_]; [lia|].
    destruct (newest_rows not_older (Z.to_nat limit) db) as [H1 [H2 [H3 H4]]].
    eexists _, _. split; [reflexivity|].
    split; [exact H1|]. split; [exact H2|]. split; [exact H3 | exact H4].
  - intros Hl. unfold Handlers.GetSamples.
    destruct (Z.ltb_spec limit 0) as [_|?]; [|lia].
    eexists. split; [reflexivity|]. split.
    + apply merge_sort_Permutation.
    + apply (all_rows_sorted not_older db).
Qed.

Lemma not_older_Z_trans : Transitive not_older_Z.
Proof. intros [x|] [y|] [z|]; simpl; try tauto. lia. Qed.

Lemma not_older_Z_total : Total not_older_Z.
Proof. intros [x|] [y|]; simpl; try tauto. lia. Qed.

Lemma newest_rows_listed_witness :
  Transitive not_older_Z /\ Total not_older_Z /\
  exists rows rest,
    Handlers.GetSamples not_older_Z false 1 two_rows = Some rows
    /\ length rows = Nat.min (Z.to_nat 1) (length two_rows)
    /\ rows ++ rest ≡ₚ two_rows
    /\ StronglySorted (Handlers.newest_first not_older_Z) rows
    /\ forall x y, x ∈ rows -> y ∈ rest ->
                   not_older_Z (UpdatedTime x) (UpdatedTime y).
Proof.
  split; [exact not_older_Z_trans|]. split; [exact not_older_Z_total|].
  refine (proj1 (@newest_rows_listed not_older_Z _ not_older_Z_trans
                   not_older_Z_total 1 two_rows) _).
  lia.
Defined.

(** With the order of the integers the later of two rows is listed. *)
Example newest_of_two :
  Handlers.GetSamples not_older_Z false 1 two_rows = Some [pending_row "Bob" "B2" 400].
Proof. reflexivity. Qed.

(** X13. [handleIndex] answers "not found" on every path but "/", without a
    query, and an internal error when the query fails; otherwise it hands
    the template the whole roster and ten rows of the table, or all of
    them if there are fewer, sorted with the latest update first and none
    of them older than a row left out.  The method of the request plays no
    part. *)
Theorem index_page (not_older : relation (option Time))
        `{!RelDecision not_older} `{!Transitive not_older} `{!Total not_older}
        (people : list ConfigPerson.t) (r : Handlers.Request) (db : DB) :
  (Handlers.Path r <> "/" ->
   forall query_fails,
     Handlers.handleIndex not_older people r query_fails db
     = (Handlers.NotFound, None)) /\
  (Handlers.Path r = "/" ->
   Handlers.handleIndex not_older people r true db
   = (Handlers.InternalServerError, None)
   /\ exists rows rest,
       Handlers.handleIndex not_older people r false db
       = (Handlers.OK, Some (Handlers.mkResponse people rows))
       /\ length rows = Nat.min 10 (length db)
       /\ rows ++ rest ≡ₚ db
       /\ StronglySorted (Handlers.newest_first not_older) rows
       /\ forall x y, x ∈ rows -> y ∈ rest ->
                      not_older (UpdatedTime x) (UpdatedTime y)).
Proof.
  unfold Handlers.handleIndex. split.
  - intros Hp query_fails. now rewrite (proj2 (String.eqb_neq _ _) Hp).
  - intros Hp. rewrite (proj2 (String.eqb_eq _ _) Hp). cbn [negb].
    split; [reflexivity|].
    destruct (newest_rows not_older 10 db) as [H1 [H2 [H3 H4]]].
    eexists _, _. split; [reflexivity|].
    split; [exact H1|]. split; [exact H2|]. split; [exact H3 | exact H4].
Qed.

Lemma index_page_witness :
  Transitive not_older_Z /\ Total not_older_Z /\
  Handlers.Path (Handlers.mkRequest "GET" "/" None) = "/" /\
  Handlers.handleIndex not_older_Z roster (Handlers.mkRequest "GET" "/" None)
                       true two_rows
  = (Handlers.InternalServerError, None).
Proof.
  split; [exact not_older_Z_trans|]. split; [exact not_older_Z_total|].
  split; [reflexivity|].
  exact (proj1 (proj2 (@index_page not_older_Z _ not_older_Z_trans
                         not_older_Z_total roster
                         (Handlers.mkRequest "GET" "/" None) two_rows) eq_refl)).
Defined.

(** ** A sample under a name the roster does not know *)

(** X14. [AddSample] does not check the name against the roster, and the
    polling code by itself never resolves a sample registered under a name
    without a roster entry: whatever passes and registrations follow, for
    as long as the process runs its row is the one inserted and every pass
    whose query succeeds selects it again.  Its row is written by nothing
    but a commit made for another row that carries its barcode, and that
    commit ends the process. *)
Theorem unknown_name_stays_pending (people : list ConfigPerson.t)
        (first : PassEnv) (evs : list Event) (db : DB)
        (name barcode : string) (t : Time) :
  find_dob people name = "" ->
  match periodicallyUpdate people first evs (AddSample name barcode t db) with
  | Running db' =>
      db' !! length db = Some (pending_row name barcode t)
      /\ forall env, QueryFails env = false ->
                     pending_row name barcode t ∈ samples_of env db'
  | Exited db' =>
      db' !! length db = Some (pending_row name barcode t)
      \/ rewritten_beside (length db) (pending_row name barcode t) db'
  end.
Proof.
  intros Hn.
  assert (Hi : AddSample name barcode t db !! length db
               = Some (pending_row name barcode t)).
  { unfold AddSample. rewrite lookup_app_r by lia. now rewrite Nat.sub_diag. }
  assert (Hr : results_like_pending (pending_row name barcode t) = false
               \/ find_dob people (Name (pending_row name barcode t)) = "")
    by now right.
  pose proof (events_row_fate people (length db) (pending_row name barcode t)
                evs Hr _ (run_pass_row_fate people first _ _ _ Hi Hr)) as H.
  unfold periodicallyUpdate.
  destruct (fold_left (on_event people) evs
              (run_pass people first (Running (AddSample name barcode t db))))
    as [db'|db']; [|exact H].
  cbn [row_fate] in H. split; [exact H|].
  intros env Hq. unfold samples_of. rewrite Hq.
  apply elem_of_select_pending. split; [reflexivity|].
  eapply list_elem_of_lookup_2. exact H.
Qed.

Lemma unknown_name_stays_pending_witness :
  find_dob roster "Zoe" = "" /\
  match periodicallyUpdate roster first_pass [Tick second_pass]
                           (AddSample "Zoe" "B9" 50 []) with
  | Running db' =>
      db' !! length (@nil Sample) = Some (pending_row "Zoe" "B9" 50)
      /\ forall env, QueryFails env = false ->
                     pending_row "Zoe" "B9" 50 ∈ samples_of env db'
  | Exited db' =>
      db' !! length (@nil Sample) = Some (pending_row "Zoe" "B9" 50)
      \/ rewritten_beside (length (@nil Sample)) (pending_row "Zoe" "B9" 50) db'
  end.
Proof.
  split; [reflexivity|].
  exact (unknown_name_stays_pending roster first_pass [Tick second_pass] []
           "Zoe" "B9" 50 eq_refl).
Defined.

(** The barcode of such a sample registered again under a name the roster
    knows: the commit for the second sample rewrites the first as well,
    and the process ends. *)
Example unknown_name_rewritten_at_exit :
  periodicallyUpdate roster first_pass [NewSample "Ann" "B9" 60; Tick third_pass]
                     (AddSample "Zoe" "B9" 50 [])
  = Exited [ set_result "Positive final" 500 "final" (pending_row "Zoe" "B9" 50);
             set_result "Positive final" 500 "final" (pending_row "Ann" "B9" 60) ].
Proof. reflexivity. Qed.

(** ** Cells are trimmed *)

Section TrimFront.

Variable s2 : ascii -> ascii -> bool.
Variable s3 : ascii -> ascii -> ascii -> bool.

Lemma trim_front_suffix_upto (n : nat) :
  forall s, (String.length s <= n)%nat ->
            exists pre, s = pre +:+ trim_front s2 s3 s.
Proof.
  induction n as [|n IH]; intros s Hn.
  - destruct s; [now exists "" | simpl in Hn; lia].
  - destruct s as [|c1 r1]; [now exists ""|]. simpl in Hn. cbn [trim_front].
    destruct (space1 c1).
    { destruct (IH r1) as [pre Hp]; [lia|]. exists (String c1 pre).
      change (String c1 pre +:+ trim_front s2 s3 r1)
        with (String c1 (pre +:+ trim_front s2 s3 r1)). now rewrite <- Hp. }
    destruct r1 as [|c2 r2]; [now exists ""|]. simpl in Hn.
    destruct (s2 c1 c2).
    { destruct (IH r2) as [pre Hp]; [lia|]. exists (String c1 (String c2 pre)).
      change (String c1 (String c2 pre) +:+ trim_front s2 s3 r2)
        with (String c1 (String c2 (pre +:+ trim_front s2 s3 r2))).
      now rewrite <- Hp. }
    destruct r2 as [|c3 r3]; [now exists ""|]. simpl in Hn.
    destruct (s3 c1 c2 c3); [|now exists ""].
    destruct (IH r3) as [pre Hp]; [lia|].
    exists (String c1 (String c2 (String c3 pre))).
    change (String c1 (String c2 (String c3 pre)) +:+ trim_front s2 s3 r3)
      with (String c1 (String c2 (String c3 (pre +:+ trim_front s2 s3 r3)))).
    now rewrite <- Hp.
Qed.

Lemma trim_front_suffix (s : string) : exists pre, s = pre +:+ trim_front s2 s3 s.
Proof. now apply (trim_front_suffix_upto (String.length s)). Qed.

Lemma trim_front_no_space_upto (n : nat) :
  forall s, (String.length s <= n)%nat ->
            no_space_in_front s2 s3 (trim_front s2 s3 s).
Proof.
  induction n as [|n IH]; intros s Hn.
  - destruct s; [exact I | simpl in Hn; lia].
  - destruct s as [|c1 r1]; [exact I|]. simpl in Hn. cbn [trim_front].
    destruct (space1 c1) eqn:E1; [apply IH; lia|].
    destruct r1 as [|c2 r2]; [now split|]. simpl in Hn.
    destruct (s2 c1 c2) eqn:E2; [apply IH; lia|].
    destruct r2 as [|c3 r3]; [now repeat split|]. simpl in Hn.
    destruct (s3 c1 c2 c3) eqn:E3; [apply IH; lia | now repeat split].
Qed.

Lemma trim_front_no_space (s : string) :
  no_space_in_front s2 s3 (trim_front s2 s3 s).
Proof. now apply (trim_front_no_space_upto (String.length s)). Qed.

Lemma trim_front_fixed (s : string) :
  no_space_in_front s2 s3 s -> trim_front s2 s3 s = s.
Proof.
  destruct s as [|c1 [|c2 [|c3 r3]]]; cbn [no_space_in_front trim_front];
    [reflexivity|..].
  - now intros [-> _].
  - now intros [-> [-> _]].
  - now intros [-> [-> ->]].
Qed.

Lemma no_space_in_front_prefix (d q : string) :
  no_space_in_front s2 s3 (d +:+ q) -> no_space_in_front s2 s3 d.
Proof.
  destruct d as [|c1 [|c2 [|c3 r3]]]; cbn [no_space_in_front]; [tauto|..].
  - change (String c1 "" +:+ q) with (String c1 q). cbn [no_space_in_front]. tauto.
  - change (String c1 (String c2 "") +:+ q) with (String c1 (String c2 q)).
    cbn [no_space_in_front]. tauto.
  - change (String c1 (String c2 (String c3 r3)) +:+ q)
      with (String c1 (String c2 (String c3 (r3 +:+ q)))).
    cbn [no_space_in_front]. tauto.
Qed.

End TrimFront.

Lemma rev_app_spec (s a b : string) :
  String.rev_app (String.rev_app s a) b = String.rev_app a (s +:+ b).
Proof.
  revert a b. induction s as [|c s IH]; intros a b; [reflexivity|].
  cbn [String.rev_app]. rewrite IH. reflexivity.
Qed.

Lemma rev_rev (s : string) : String.rev (String.rev s) = s.
Proof. unfold String.rev. rewrite rev_app_spec. apply append_nil_r. Qed.

Lemma rev_app_acc (s a : string) : String.rev_app s a = String.rev s +:+ a.
Proof.
  unfold String.rev. revert a. induction s as [|c s IH]; intros a; [reflexivity|].
  cbn [String.rev_app]. rewrite IH, (IH (String c "")), append_assoc. reflexivity.
Qed.

Lemma rev_append (a b : string) :
  String.rev (a +:+ b) = String.rev b +:+ String.rev a.
Proof.
  induction a as [|c a IH].
  - change ("" +:+ b) with b. now rewrite append_nil_r.
  - change (String c a +:+ b) with (String c (a +:+ b)).
    unfold String.rev at 1 3. cbn [String.rev_app].
    rewrite !rev_app_acc, IH, append_assoc. reflexivity.
Qed.

Lemma TrimSpace_fixed (s : string) : TrimSpace (TrimSpace s) = TrimSpace s.
Proof.
  unfold TrimSpace, TrimRight, TrimLeft.
  set (tl := trim_front space2 space3).
  set (tr := trim_front (fun b a => space2 a b) (fun c b a => space3 a b c)).
  set (u := tl s). set (w := tr (String.rev u)).
  destruct (trim_front_suffix (fun b a => space2 a b) (fun c b a => space3 a b c)
              (String.rev u)) as [p Hp].
  fold tr in Hp. fold w in Hp.
  assert (Hu : u = String.rev w +:+ String.rev p).
  { rewrite <- (rev_rev u), Hp. apply rev_append. }
  assert (Hd : tl (String.rev w) = String.rev w).
  { apply trim_front_fixed. apply (no_space_in_front_prefix _ _ _ (String.rev p)).
    rewrite <- Hu. apply trim_front_no_space. }
  rewrite Hd, rev_rev. f_equal.
  apply trim_front_fixed. apply trim_front_no_space.
Qed.

(** X15. Every cell [getAllTDs] yields is left as it is by [TrimSpace]: it
    has no white space, ASCII or other, in front or behind, and it is not
    empty. *)
Theorem cells_are_trimmed (toks : list Token) (d : string) :
  d ∈ cells_of toks -> TrimSpace d = d /\ d <> "".
Proof.
  intros Hd.
  destruct (emitted_positions toks) as [ks [_ [_ [Hf _]]]].
  apply list_elem_of_lookup_1 in Hd as [n Hn].
  destruct (Forall2_lookup_r _ _ _ _ _ Hf Hn) as [k [_ [t [_ [-> [Hne _]]]]]].
  split; [apply TrimSpace_fixed | exact Hne].
Qed.

Lemma cells_are_trimmed_witness :
  "x y" ∈ cells_of [td_start; text_token "  x y "] /\
  TrimSpace "x y" = "x y" /\ "x y" <> "".
Proof.
  assert (H : "x y" ∈ cells_of [td_start; text_token "  x y "])
    by (vm_compute; left).
  split; [exact H|].
  exact (cells_are_trimmed [td_start; text_token "  x y "] "x y" H).
Defined.
